(** * datafeed.py: the market store of the ClawBot data feed

    A shallow embedding of [src/datafeed.py]: the [MarketSnapshot] dataclass,
    the [ClawBotDataFeed.markets] dictionary and the three methods that read or
    write it ([fetch_politics_markets], the message loop of [connect_clob_ws],
    [get_top_mispricing]).

    Modelling choices.
    - JSON numbers are exact rationals ([Q]); [abs], [-] and [>] are the
      rational ones.  So every number of the model is finite: the floats
      [inf] and [nan] (which [json] decodes from [1e999], [Infinity], [NaN],
      and [abs(inf - inf)] produces), rounding, and integers too large for a
      float are outside the model.
    - A decoded JSON object is a record of optional fields: [None] is a key the
      object does not have.  A field that is present has the type the
      dataclass annotation gives it ([str] or a number); a key that is
      present with [null], a string in place of a number, or another JSON
      type, on which the code raises [TypeError] or [ValueError], is outside
      the model.
    - The log calls (lines 60 and 80) are left out.  The one of line 80
      formats [data['yes_bid']] with [.3f] after both assignments; it does
      not raise on a finite float and changes no store, so the stores the
      model computes are those of the code, and no statement below says
      that the handler returns normally after its two assignments.
    - A Python exception is a value [Raise e]; nothing in the file catches one,
      so it leaves the method that raised it.
    - [self.markets] is a [dict]: keys in insertion order, assigning to a key
      that is present keeps its position.  It is an association list.
    - Transport (HTTP session, websocket, logging) is not modelled: the
      decoded response and the decoded messages are the inputs. *)

From Stdlib Require Import List String Bool ZArith QArith Qabs Lia.
From Stdlib Require Import Sorted Permutation.
Import ListNotations.

Local Open Scope string_scope.
Local Open Scope Q_scope.
Local Open Scope list_scope.

(** ** Exceptions *)

Inductive exn : Type :=
| KeyError (key : string)
| IndexError.

Inductive result (A : Type) : Type :=
| Ok (a : A)
| Raise (e : exn).

Arguments Ok {A} a.
Arguments Raise {A} e.

Definition bind {A B : Type} (r : result A) (k : A -> result B) : result B :=
  match r with
  | Ok a => k a
  | Raise e => Raise e
  end.

Notation "x <- r ;; k" := (bind r (fun x => k))
  (at level 61, r at next level, right associativity).

(** [o[key]] on a decoded JSON object: [KeyError] when the key is missing. *)
Definition getitem {A : Type} (key : string) (field : option A) : result A :=
  match field with
  | Some v => Ok v
  | None => Raise (KeyError key)
  end.

(** [l[i]] on a list, [i >= 0]: [IndexError] when out of range. *)
Definition getindex {A : Type} (l : list A) (i : nat) : result A :=
  match nth_error l i with
  | Some v => Ok v
  | None => Raise IndexError
  end.

(** [o.get(key, default)]. *)
Definition get_default {A : Type} (field : option A) (default : A) : A :=
  match field with
  | Some v => v
  | None => default
  end.

(** [a > b] on numbers. *)
Definition Qgtb (a b : Q) : bool := negb (Qle_bool a b).

(** ** The dataclass *)

Record MarketSnapshot : Type := mkMarketSnapshot {
  market_id : string;
  yes_price : Q;
  no_price : Q;
  spread : Q;
  volume_usd : Q;
  category : string
}.

(** Attribute assignment [m.yes_price = y] and [m.no_price = n]. *)
Definition set_yes_price (y : Q) (m : MarketSnapshot) : MarketSnapshot :=
  mkMarketSnapshot (market_id m) y (no_price m) (spread m) (volume_usd m) (category m).

Definition set_no_price (n : Q) (m : MarketSnapshot) : MarketSnapshot :=
  mkMarketSnapshot (market_id m) (yes_price m) n (spread m) (volume_usd m) (category m).

(** ** Python's [dict] with [str] keys *)

Module Dict.
Section WithValue.
Context {V : Type}.

Definition t : Type := list (string * V).

Definition empty : t := [].

(** [d.get(k)] / [d[k]]. *)
Fixpoint get (d : t) (k : string) : option V :=
  match d with
  | [] => None
  | (k', v) :: r => if String.eqb k' k then Some v else get r k
  end.

(** [k in d]. *)
Definition contains (d : t) (k : string) : bool :=
  match get d k with
  | Some _ => true
  | None => false
  end.

(** [d[k] = v]: the value is replaced where the key sits, a new key goes
    last. *)
Fixpoint setitem (d : t) (k : string) (v : V) : t :=
  match d with
  | [] => [(k, v)]
  | (k', v') :: r =>
      if String.eqb k' k then (k', v) :: r else (k', v') :: setitem r k v
  end.

(** Mutation of the object stored under [k] (no effect on a missing key). *)
Fixpoint modify (d : t) (k : string) (f : V -> V) : t :=
  match d with
  | [] => []
  | (k', v') :: r =>
      if String.eqb k' k then (k', f v') :: r else (k', v') :: modify r k f
  end.

(** [d.update(other)]: the items of [other], in its order. *)
Definition update (d other : t) : t :=
  fold_left (fun acc kv => setitem acc (fst kv) (snd kv)) other d.

Definition keys (d : t) : list string := map fst d.
Definition values (d : t) : list V := map snd d.
End WithValue.
Arguments t V : clear implicits.
End Dict.

(** ** Decoded inputs *)

(** One element of [m["outcomes"]]. *)
Record Outcome : Type := mkOutcome {
  j_price : option Q
}.

(** One element of [data["markets"]] of the discovery response. *)
Record GammaMarket : Type := mkGammaMarket {
  j_id : option string;
  j_outcomes : option (list Outcome);
  j_volume24h : option Q;
  j_category : option string
}.

(** The discovery response [data = await resp.json()]. *)
Record GammaResponse : Type := mkGammaResponse {
  j_markets : option (list GammaMarket)
}.

(** A decoded websocket message [data = json.loads(message)]. *)
Record WsMessage : Type := mkWsMessage {
  j_type : option string;
  j_market_id : option string;
  j_yes_bid : option Q;
  j_no_ask : option Q
}.

(** ** fetch_politics_markets *)

(** The test [m.get("volume24h", 0) > 1000000]. *)
Definition above_volume (m : GammaMarket) : bool :=
  Qgtb (get_default (j_volume24h m) 0) 1000000.

(** [m["outcomes"][i]["price"]]. *)
Definition outcome_price (m : GammaMarket) (i : nat) : result Q :=
  os <- getitem "outcomes" (j_outcomes m) ;;
  o <- getindex os i ;;
  getitem "price" (j_price o).

(** The constructor call [MarketSnapshot(market_id=m["id"], ...)], its
    arguments evaluated in the order they are written. *)
Definition make_snapshot (m : GammaMarket) : result MarketSnapshot :=
  i <- getitem "id" (j_id m) ;;
  y <- outcome_price m 0 ;;
  n <- outcome_price m 1 ;;
  y' <- outcome_price m 0 ;;
  n' <- outcome_price m 1 ;;
  v <- getitem "volume24h" (j_volume24h m) ;;
  c <- getitem "category" (j_category m) ;;
  Ok (mkMarketSnapshot i y n (Qabs (y' - n')) v c).

(** The loop [for m in data.get("markets", []): if ...: markets.append(...)]. *)
Fixpoint collect_markets (ms : list GammaMarket) : result (list MarketSnapshot) :=
  match ms with
  | [] => Ok []
  | m :: rest =>
      if above_volume m then
        s <- make_snapshot m ;;
        tl <- collect_markets rest ;;
        Ok (s :: tl)
      else collect_markets rest
  end.

(** The comprehension [{m.market_id: m for m in markets}]. *)
Definition by_market_id (markets : list MarketSnapshot) : Dict.t MarketSnapshot :=
  fold_left (fun acc m => Dict.setitem acc (market_id m) m) markets Dict.empty.

(** [self.markets.update({m.market_id: m for m in markets})]. *)
Definition upsert_snapshot (store : Dict.t MarketSnapshot)
    (markets : list MarketSnapshot) : Dict.t MarketSnapshot :=
  Dict.update store (by_market_id markets).

(** The method: what it returns (or raises) and [self.markets] afterwards. *)
Definition fetch_politics_markets (store : Dict.t MarketSnapshot)
    (data : GammaResponse)
  : result (list MarketSnapshot) * Dict.t MarketSnapshot :=
  match collect_markets (get_default (j_markets data) []) with
  | Ok markets => (Ok markets, upsert_snapshot store markets)
  | Raise e => (Raise e, store)
  end.

(** ** connect_clob_ws *)

Definition is_orderbook_update (data : WsMessage) : bool :=
  match j_type data with
  | Some t => String.eqb t "orderbook_update"
  | None => false
  end.

(** The body of [async for message in ws], lines 74 to 79 (the log call of
    line 80 follows the two assignments and writes nothing to the store).
    The two attribute assignments happen one after the other, so a message
    without ["no_ask"] raises after [yes_price] was written. *)
Definition on_message (store : Dict.t MarketSnapshot) (data : WsMessage)
  : result unit * Dict.t MarketSnapshot :=
  if is_orderbook_update data then
    match j_market_id data with
    | None => (Raise (KeyError "market_id"), store)
    | Some k =>
        if Dict.contains store k then
          match j_yes_bid data with
          | None => (Raise (KeyError "yes_bid"), store)
          | Some y =>
              let store1 := Dict.modify store k (set_yes_price y) in
              match j_no_ask data with
              | None => (Raise (KeyError "no_ask"), store1)
              | Some n => (Ok tt, Dict.modify store1 k (set_no_price n))
              end
          end
        else (Ok tt, store)
    end
  else (Ok tt, store).

(** The message loop over the messages received until the connection closes;
    an exception ends it. *)
Fixpoint connect_clob_ws (store : Dict.t MarketSnapshot) (messages : list WsMessage)
  : result unit * Dict.t MarketSnapshot :=
  match messages with
  | [] => (Ok tt, store)
  | data :: rest =>
      match on_message store data with
      | (Ok _, store') => connect_clob_ws store' rest
      | (Raise e, store') => (Raise e, store')
      end
  end.

(** ** get_top_mispricing *)

(** [sorted(xs, key=lambda m: m.spread, reverse=True)].  Python's sort is
    stable, also with [reverse=True]: elements with equal keys keep the order
    they had in [xs].  A stable sort has one possible result, so insertion
    from the right, passing only strictly greater keys, computes it. *)
Fixpoint insert_desc (x : MarketSnapshot) (l : list MarketSnapshot) : list MarketSnapshot :=
  match l with
  | [] => [x]
  | y :: r => if Qgtb (spread y) (spread x) then y :: insert_desc x r else x :: l
  end.

Definition sorted_by_spread_desc (xs : list MarketSnapshot) : list MarketSnapshot :=
  fold_right insert_desc [] xs.

(** The slice [l[:n]]: a negative [n] counts from the end. *)
Definition slice_to {A : Type} (l : list A) (n : Z) : list A :=
  if (0 <=? n)%Z then firstn (Z.to_nat n) l
  else firstn (Z.to_nat (Z.of_nat (List.length l) + n)) l.

Definition get_top_mispricing (store : Dict.t MarketSnapshot) (top_n : Z)
  : list MarketSnapshot :=
  slice_to (sorted_by_spread_desc (Dict.values store)) top_n.

(** ** Histories of the store *)

(** The store starts empty ([__init__]) and is written by fetches and by
    stream messages, in any interleaving. *)
Inductive event : Type :=
| Fetched (data : GammaResponse)
| Streamed (data : WsMessage).

Definition step (store : Dict.t MarketSnapshot) (ev : event) : Dict.t MarketSnapshot :=
  match ev with
  | Fetched data => snd (fetch_politics_markets store data)
  | Streamed data => snd (on_message store data)
  end.

(** The reachable stores are the [run evs]. *)
Definition run (evs : list event) : Dict.t MarketSnapshot :=
  fold_left step evs Dict.empty.


(** ** Spec-side notions used to state the claims *)


(** The record does not yield two outcome prices: ["outcomes"] is missing or
    shorter than two, or one of the first two outcomes has no ["price"]. *)
Definition lacks_two_prices (m : GammaMarket) : Prop :=
  (exists e, outcome_price m 0 = Raise e) \/ (exists e, outcome_price m 1 = Raise e).




(** The dataclass has no [last_updated] attribute.  The logical time at which
    the entry of [k] was last written is read off the history instead: the
    index of the last event that assigned the entry (a fetch that returned a
    market with this id) or one of its attributes (an orderbook update that
    reached the first assignment). *)
Definition writes (store : Dict.t MarketSnapshot) (ev : event) (k : string) : bool :=
  match ev with
  | Fetched data =>
      match fst (fetch_politics_markets store data) with
      | Ok markets => existsb (fun m => String.eqb (market_id m) k) markets
      | Raise _ => false
      end
  | Streamed data =>
      is_orderbook_update data &&
      match j_market_id data, j_yes_bid data with
      | Some k', Some _ => String.eqb k' k && Dict.contains store k
      | _, _ => false
      end
  end.

Fixpoint last_updated_from (store : Dict.t MarketSnapshot) (now : nat)
    (last : option nat) (evs : list event) (k : string) : option nat :=
  match evs with
  | [] => last
  | ev :: rest =>
      last_updated_from (step store ev) (S now)
        (if writes store ev k then Some now else last) rest k
  end.

Definition last_updated (evs : list event) (k : string) : option nat :=
  last_updated_from Dict.empty 0 None evs k.

(** Descending order of spreads. *)
Definition spread_ge (a b : MarketSnapshot) : Prop := spread b <= spread a.

(** The entries of a list whose spread equals [v], in the list's order. *)
Definition with_spread (v : Q) (l : list MarketSnapshot) : list MarketSnapshot :=
  filter (fun m => Qeq_bool (spread m) v) l.

(** The tie-break as the specification words it: of two returned entries with
    equal spread, the one written later comes first. *)
Definition newer_first_on_ties (evs : list event) (top_n : Z) : Prop :=
  let out := get_top_mispricing (run evs) top_n in
  forall (i j : nat) (a b : MarketSnapshot) (ta tb : nat),
    nth_error out i = Some a -> nth_error out j = Some b ->
    spread a == spread b ->
    last_updated evs (market_id a) = Some ta ->
    last_updated evs (market_id b) = Some tb ->
    (tb < ta)%nat -> (i < j)%nat.

(** Properties of the items of the store. *)
Definition key_coherent (kv : string * MarketSnapshot) : Prop :=
  market_id (snd kv) = fst kv.



Definition volume_above_threshold (m : MarketSnapshot) : Prop :=
  1000000 < volume_usd m.

Definition spread_exact (m : MarketSnapshot) : Prop :=
  spread m == Qabs (yes_price m - no_price m).

(** ** Concrete inputs *)

(** A discovery record with an id, two outcome prices, a volume and the
    category "politics". *)
Definition market_record (i : string) (y n v : Q) : GammaMarket :=
  mkGammaMarket (Some i) (Some [mkOutcome (Some y); mkOutcome (Some n)])
    (Some v) (Some "politics").

(** A record above the volume threshold with a single outcome. *)
Definition one_outcome_record (i : string) (y v : Q) : GammaMarket :=
  mkGammaMarket (Some i) (Some [mkOutcome (Some y)]) (Some v) (Some "politics").

(** A record without the key ["volume24h"]. *)
Definition no_volume_record (i : string) (y n : Q) : GammaMarket :=
  mkGammaMarket (Some i) (Some [mkOutcome (Some y); mkOutcome (Some n)])
    None (Some "politics").

Definition response (ms : list GammaMarket) : GammaResponse :=
  mkGammaResponse (Some ms).

Definition orderbook_update (k : string) (y n : Q) : WsMessage :=
  mkWsMessage (Some "orderbook_update") (Some k) (Some y) (Some n).

(** The store of the spec's scenario: A(0.9, 0.1), B(0.5, 0.5), C(0.7, 0.35). *)
Definition scenario_store : Dict.t MarketSnapshot :=
  run [Fetched (response [market_record "A" 0.9 0.1 2000000;
                          market_record "B" 0.5 0.5 2000000;
                          market_record "C" 0.7 0.35 2000000])].

(** ** The rest of the module *)

(** The control message [subscribe_msg] that [connect_clob_ws] sends before it
    reads the stream: one topic ["market/<id>"] per key of the store, in the
    order of the keys. *)
Record SubscribeMsg : Type := mkSubscribeMsg {
  sub_type : string;
  sub_topics : list string
}.

Definition subscribe_msg (store : Dict.t MarketSnapshot) : SubscribeMsg :=
  mkSubscribeMsg "subscribe"
    (map (fun market_id => String.append "market/" market_id) (Dict.keys store)).

(** [test_datafeed]: a fresh feed fetches once; what is printed is the list
    [[m.market_id for m in markets[:3]]]. *)
Definition test_datafeed (data : GammaResponse) : result (list string) :=
  markets <- fst (fetch_politics_markets Dict.empty data) ;;
  Ok (map market_id (slice_to markets 3)).

(** The record has every key the constructor call reads besides
    ["volume24h"]. *)
Definition complete_record (m : GammaMarket) : Prop :=
  j_id m <> None /\
  (exists y, outcome_price m 0 = Ok y) /\
  (exists n, outcome_price m 1 = Ok n) /\
  j_category m <> None.

(** The last market of a list that has the id [k]. *)
Definition last_with_id (k : string) (markets : list MarketSnapshot)
  : option MarketSnapshot :=
  find (fun m => String.eqb (market_id m) k) (rev markets).

(** What a stream message cannot change of a market. *)
Definition fixed_part (m : MarketSnapshot) : string * Q * Q * string :=
  (market_id m, spread m, volume_usd m, category m).

(** What a message does to the market it names: nothing, the first
    assignment, or both, by the keys it has. *)
Definition price_update (data : WsMessage) (m : MarketSnapshot) : MarketSnapshot :=
  if is_orderbook_update data then
    match j_yes_bid data with
    | None => m
    | Some y =>
        match j_no_ask data with
        | None => set_yes_price y m
        | Some n => set_no_price n (set_yes_price y m)
        end
    end
  else m.

(** A record below the threshold that has nothing but a volume. *)
Definition bare_record (v : Q) : GammaMarket :=
  mkGammaMarket None None (Some v) None.

(** ** Facts about the dictionary *)

Module DictFacts.
Section WithValue.
Context {V : Type}.
Implicit Types (d : Dict.t V) (k : string) (v : V).

Lemma get_setitem_eq d k v : Dict.get (Dict.setitem d k v) k = Some v.
Proof.
  induction d as [| [k' v'] r IH]; simpl.
  - now rewrite String.eqb_refl.
  - destruct (String.eqb k' k) eqn:E; simpl; rewrite E; auto.
Qed.

Lemma get_setitem_ne d k k' v :
  k <> k' -> Dict.get (Dict.setitem d k v) k' = Dict.get d k'.
Proof.
  intros Hne. induction d as [| [k0 v0] r IH]; simpl.
  - destruct (String.eqb_spec k k'); congruence.
  - destruct (String.eqb_spec k0 k) as [-> | Hk]; simpl.
    + destruct (String.eqb_spec k k'); congruence.
    + now rewrite IH.
Qed.

Lemma setitem_same d k v : Dict.get d k = Some v -> Dict.setitem d k v = d.
Proof.
  induction d as [| [k' v'] r IH]; simpl; [discriminate |].
  destruct (String.eqb k' k); intros H.
  - now inversion H.
  - now rewrite IH.
Qed.

Lemma keys_modify d k f : Dict.keys (Dict.modify d k f) = Dict.keys d.
Proof.
  induction d as [| [k' v'] r IH]; simpl; auto.
  destruct (String.eqb k' k); simpl; auto. now f_equal.
Qed.

Lemma length_modify d k f : List.length (Dict.modify d k f) = List.length d.
Proof.
  unfold Dict.t in *.
  rewrite <- (length_map fst (Dict.modify d k f)), <- (length_map fst d).
  now rewrite (keys_modify d k f : map fst _ = map fst _).
Qed.

Lemma get_modify_eq d k f :
  Dict.get (Dict.modify d k f) k = option_map f (Dict.get d k).
Proof.
  induction d as [| [k' v'] r IH]; simpl; auto.
  destruct (String.eqb k' k) eqn:E; simpl; rewrite E; auto.
Qed.

Lemma get_modify_ne d k k' f :
  k <> k' -> Dict.get (Dict.modify d k f) k' = Dict.get d k'.
Proof.
  intros Hne. induction d as [| [k0 v0] r IH]; simpl; auto.
  destruct (String.eqb_spec k0 k) as [-> | Hk]; simpl.
  - destruct (String.eqb_spec k k'); congruence.
  - now rewrite IH.
Qed.

Lemma modify_absent d k f : Dict.get d k = None -> Dict.modify d k f = d.
Proof.
  induction d as [| [k' v'] r IH]; simpl; auto.
  destruct (String.eqb k' k); [discriminate |].
  intros H. now rewrite IH.
Qed.

Lemma get_In d k v : Dict.get d k = Some v -> In (k, v) d.
Proof.
  induction d as [| [k' v'] r IH]; simpl; [discriminate |].
  destruct (String.eqb_spec k' k) as [-> | Hk]; intros H.
  - left. congruence.
  - right. auto.
Qed.

(** Properties of all items. *)
Section Items.
Variable P : string * V -> Prop.

Lemma Forall_setitem d k v :
  Forall P d -> P (k, v) -> Forall P (Dict.setitem d k v).
Proof.
  intros Hd Hkv. induction Hd as [| [k' v'] r Hx Hr IH]; simpl.
  - auto.
  - destruct (String.eqb_spec k' k) as [-> | Hk]; constructor; auto.
Qed.

Lemma Forall_update d other :
  Forall P d -> Forall P other -> Forall P (Dict.update d other).
Proof.
  intros Hd Ho. revert d Hd.
  induction Ho as [| [k v] r Hx Hr IH]; intros d Hd; simpl; auto.
  apply IH. now apply Forall_setitem.
Qed.

Lemma Forall_modify d k f :
  Forall P d -> (forall v, P (k, v) -> P (k, f v)) ->
  Forall P (Dict.modify d k f).
Proof.
  intros Hd Hf. induction Hd as [| [k' v'] r Hx Hr IH]; simpl; auto.
  destruct (String.eqb_spec k' k) as [-> | Hk]; constructor; auto.
Qed.
End Items.

(** Keys stay unique. *)
Lemma keys_setitem_In d k v k' :
  In k' (Dict.keys (Dict.setitem d k v)) -> k' = k \/ In k' (Dict.keys d).
Proof.
  induction d as [| [k0 v0] r IH]; simpl.
  - intros [H | []]; auto.
  - destruct (String.eqb_spec k0 k) as [-> | Hk]; simpl; intros [H | H]; auto.
    destruct (IH H); auto.
Qed.

Lemma NoDup_keys_setitem d k v :
  NoDup (Dict.keys d) -> NoDup (Dict.keys (Dict.setitem d k v)).
Proof.
  induction d as [| [k0 v0] r IH]; simpl; intros H.
  - constructor; [intros [] | constructor].
  - inversion H as [| ? ? Hnotin Hr]; subst.
    destruct (String.eqb_spec k0 k) as [-> | Hk]; simpl.
    + now constructor.
    + constructor; auto.
      intros Hin. destruct (keys_setitem_In _ _ _ _ Hin); congruence.
Qed.


(** A key outside [other] is not touched by [update]. *)
Lemma get_update_notin d other k :
  ~ In k (Dict.keys other) -> Dict.get (Dict.update d other) k = Dict.get d k.
Proof.
  revert d. induction other as [| [k0 v0] r IH]; intros d Hk; simpl; auto.
  simpl in Hk. rewrite IH by tauto.
  apply get_setitem_ne. tauto.
Qed.

(** Updating twice with a dictionary is updating once. *)
Lemma update_idempotent d other :
  NoDup (Dict.keys other) ->
  Dict.update (Dict.update d other) other = Dict.update d other.
Proof.
  revert d. induction other as [| [k v] r IH]; intros d Hnd; simpl; auto.
  inversion Hnd as [| ? ? Hnotin Hr]; subst.
  fold (Dict.update (Dict.setitem d k v) r).
  rewrite (setitem_same (Dict.update (Dict.setitem d k v) r) k v).
  - apply IH; auto.
  - rewrite get_update_notin by auto. apply get_setitem_eq.
Qed.
End WithValue.
End DictFacts.

(** ** Facts about numbers *)

Lemma Qgtb_lt (a b : Q) : Qgtb a b = true <-> b < a.
Proof.
  unfold Qgtb. rewrite negb_true_iff. split; intros H.
  - apply Qnot_le_lt. intros Hle. apply Qle_bool_iff in Hle. congruence.
  - destruct (Qle_bool a b) eqn:E; auto.
    apply Qle_bool_iff in E. exfalso. exact (Qlt_not_le _ _ H E).
Qed.

Lemma Qgtb_false_le (a b : Q) : Qgtb a b = false <-> a <= b.
Proof.
  unfold Qgtb. rewrite negb_false_iff. apply Qle_bool_iff.
Qed.

(** ** Facts about the snapshot fetch *)

Lemma bind_Ok {A B : Type} (r : result A) (k : A -> result B) (b : B) :
  bind r k = Ok b -> exists a, r = Ok a /\ k a = Ok b.
Proof.
  destruct r as [a | e]; simpl; [eauto | discriminate].
Qed.

(** What a successful constructor call read from the record. *)
Lemma make_snapshot_Ok (m : GammaMarket) (s : MarketSnapshot) :
  make_snapshot m = Ok s ->
  exists i y n v c,
    j_id m = Some i /\ outcome_price m 0 = Ok y /\ outcome_price m 1 = Ok n /\
    j_volume24h m = Some v /\ j_category m = Some c /\
    s = mkMarketSnapshot i y n (Qabs (y - n)) v c.
Proof.
  unfold make_snapshot. intros H.
  destruct (j_id m) as [i |]; simpl in H; [| discriminate].
  destruct (outcome_price m 0) as [y | e0]; simpl in H; [| discriminate].
  destruct (outcome_price m 1) as [n | e1]; simpl in H; [| discriminate].
  destruct (j_volume24h m) as [v |]; simpl in H; [| discriminate].
  destruct (j_category m) as [c |]; simpl in H; [| discriminate].
  inversion H. exists i, y, n, v, c. repeat split; reflexivity.
Qed.

(** A record without two outcome prices makes the constructor call raise. *)
Lemma make_snapshot_lacks (m : GammaMarket) :
  lacks_two_prices m -> exists e, make_snapshot m = Raise e.
Proof.
  unfold make_snapshot. intros [[e He] | [e He]].
  - destruct (j_id m); simpl; [| eauto]. rewrite He. simpl. eauto.
  - destruct (j_id m); simpl; [| eauto].
    destruct (outcome_price m 0); simpl; [| eauto].
    rewrite He. simpl. eauto.
Qed.

(** A record the volume test rejects does not take part in the loop. *)
Lemma collect_markets_skip (pre post : list GammaMarket) (m : GammaMarket) :
  above_volume m = false ->
  collect_markets (pre ++ m :: post) = collect_markets (pre ++ post).
Proof.
  intros Hm. induction pre as [| p pre IH]; simpl.
  - now rewrite Hm.
  - now rewrite IH.
Qed.

(** A record that passes the volume test and raises ends the loop, wherever
    it stands in the batch. *)
Lemma collect_markets_raise (pre post : list GammaMarket) (m : GammaMarket) (e : exn) :
  above_volume m = true -> make_snapshot m = Raise e ->
  exists e', collect_markets (pre ++ m :: post) = Raise e'.
Proof.
  intros Hv Hm. induction pre as [| p pre [e' IH]]; simpl.
  - rewrite Hv, Hm. simpl. eauto.
  - rewrite IH. destruct (above_volume p); [| eauto].
    destruct (make_snapshot p); simpl; eauto.
Qed.

(** Every market of the returned list was built from a record of the batch
    that passed the volume test. *)
Lemma collect_markets_Ok (ms : list GammaMarket) (markets : list MarketSnapshot) :
  collect_markets ms = Ok markets ->
  Forall (fun s => exists m, In m ms /\ above_volume m = true /\ make_snapshot m = Ok s)
    markets.
Proof.
  revert markets. induction ms as [| m rest IH]; simpl; intros markets H.
  - inversion H. constructor.
  - destruct (above_volume m) eqn:Hv.
    + apply bind_Ok in H as [s [Hs H]].
      apply bind_Ok in H as [tl [Htl H]]. inversion H; subst.
      constructor; [exists m; simpl; auto |].
      eapply Forall_impl; [| apply IH; exact Htl].
      intros a [m' [Hin Hm']]. exists m'. simpl. auto.
    + eapply Forall_impl; [| apply IH; exact H].
      intros a [m' [Hin Hm']]. exists m'. simpl. auto.
Qed.

Lemma by_market_id_from_Forall (P : string * MarketSnapshot -> Prop)
    (markets : list MarketSnapshot) (acc : Dict.t MarketSnapshot) :
  Forall P acc -> Forall (fun m => P (market_id m, m)) markets ->
  Forall P (fold_left (fun acc m => Dict.setitem acc (market_id m) m) markets acc).
Proof.
  intros Hacc Hm. revert acc Hacc.
  induction Hm as [| m r Hx Hr IH]; intros acc Hacc; simpl; auto.
  apply IH. now apply DictFacts.Forall_setitem.
Qed.

Lemma by_market_id_NoDup_from (markets : list MarketSnapshot) (acc : Dict.t MarketSnapshot) :
  NoDup (Dict.keys acc) ->
  NoDup (Dict.keys (fold_left (fun acc m => Dict.setitem acc (market_id m) m) markets acc)).
Proof.
  revert acc. induction markets as [| m r IH]; intros acc Hacc; simpl; auto.
  apply IH. now apply DictFacts.NoDup_keys_setitem.
Qed.

Lemma by_market_id_NoDup (markets : list MarketSnapshot) :
  NoDup (Dict.keys (by_market_id markets)).
Proof.
  apply by_market_id_NoDup_from. constructor.
Qed.

(** The upsert keeps a property of all items that the batch has. *)
Lemma upsert_snapshot_Forall (P : string * MarketSnapshot -> Prop)
    (store : Dict.t MarketSnapshot) (markets : list MarketSnapshot) :
  Forall P store -> Forall (fun m => P (market_id m, m)) markets ->
  Forall P (upsert_snapshot store markets).
Proof.
  intros Hs Hm. apply DictFacts.Forall_update; auto.
  apply by_market_id_from_Forall; auto; constructor.
Qed.

Lemma fetch_Forall (P : string * MarketSnapshot -> Prop)
    (store : Dict.t MarketSnapshot) (data : GammaResponse) :
  Forall P store ->
  (forall m s, In m (get_default (j_markets data) []) -> above_volume m = true ->
     make_snapshot m = Ok s -> P (market_id s, s)) ->
  Forall P (snd (fetch_politics_markets store data)).
Proof.
  intros Hs Hm. unfold fetch_politics_markets.
  destruct (collect_markets _) as [markets | e] eqn:Hc; simpl; auto.
  apply upsert_snapshot_Forall; auto.
  eapply Forall_impl; [| apply collect_markets_Ok; exact Hc].
  intros s [m [Hin [Hv Hmk]]]. eauto.
Qed.

(** ** Facts about the stream handler *)

(** The store after a message: untouched, or the entry of the message's id
    with [yes_price] assigned, or with both prices assigned. *)
Lemma on_message_cases (store : Dict.t MarketSnapshot) (data : WsMessage) :
  snd (on_message store data) = store \/
  (exists k y, j_market_id data = Some k /\ j_yes_bid data = Some y /\
     Dict.contains store k = true /\
     ((j_no_ask data = None /\
       snd (on_message store data) = Dict.modify store k (set_yes_price y)) \/
      (exists n, j_no_ask data = Some n /\
         snd (on_message store data) =
           Dict.modify (Dict.modify store k (set_yes_price y)) k (set_no_price n)))).
Proof.
  unfold on_message.
  destruct (is_orderbook_update data); [| now left].
  destruct (j_market_id data) as [k |]; [| now left].
  destruct (Dict.contains store k) eqn:Hk; [| now left].
  destruct (j_yes_bid data) as [y |]; [| now left].
  right. exists k, y. repeat split; auto.
  destruct (j_no_ask data) as [n |]; simpl; eauto.
Qed.

Lemma on_message_Forall (P : string * MarketSnapshot -> Prop)
    (store : Dict.t MarketSnapshot) (data : WsMessage) :
  Forall P store ->
  (forall k m y, j_yes_bid data = Some y -> P (k, m) -> P (k, set_yes_price y m)) ->
  (forall k m n, j_no_ask data = Some n -> P (k, m) -> P (k, set_no_price n m)) ->
  Forall P (snd (on_message store data)).
Proof.
  intros Hs Hy Hn.
  destruct (on_message_cases store data) as [-> | [k [y [_ [Hyb [_ [[_ ->] | [n [Hna ->]]]]]]]]].
  - assumption.
  - apply DictFacts.Forall_modify; eauto.
  - apply DictFacts.Forall_modify; eauto.
    apply DictFacts.Forall_modify; eauto.
Qed.

(** ** Facts about the ranking *)

Lemma insert_desc_perm (x : MarketSnapshot) (l : list MarketSnapshot) :
  Permutation (insert_desc x l) (x :: l).
Proof.
  induction l as [| y r IH]; simpl; auto.
  destruct (Qgtb (spread y) (spread x)); auto.
  rewrite IH. apply perm_swap.
Qed.

Lemma sorted_by_spread_desc_perm (xs : list MarketSnapshot) :
  Permutation (sorted_by_spread_desc xs) xs.
Proof.
  induction xs as [| x r IH]; simpl; auto.
  rewrite insert_desc_perm. now constructor.
Qed.

Lemma insert_desc_sorted (x : MarketSnapshot) (l : list MarketSnapshot) :
  StronglySorted spread_ge l -> StronglySorted spread_ge (insert_desc x l).
Proof.
  induction 1 as [| y r Hr IH Hy]; simpl.
  - repeat constructor.
  - destruct (Qgtb (spread y) (spread x)) eqn:E.
    + constructor; auto.
      apply (Permutation_Forall (Permutation_sym (insert_desc_perm x r))).
      constructor; auto.
      apply Qgtb_lt in E. now apply Qlt_le_weak.
    + apply Qgtb_false_le in E.
      constructor; [now constructor |].
      constructor; auto.
      eapply Forall_impl; [| exact Hy].
      intros z Hz. unfold spread_ge in *. eapply Qle_trans; eauto.
Qed.

Lemma sorted_by_spread_desc_sorted (xs : list MarketSnapshot) :
  StronglySorted spread_ge (sorted_by_spread_desc xs).
Proof.
  induction xs as [| x r IH]; simpl.
  - constructor.
  - now apply insert_desc_sorted.
Qed.

(** Stability: an inserted element passes no element of equal spread. *)
Lemma with_spread_insert_desc (v : Q) (x : MarketSnapshot) (l : list MarketSnapshot) :
  with_spread v (insert_desc x l) = with_spread v (x :: l).
Proof.
  induction l as [| y r IH]; simpl; auto.
  destruct (Qgtb (spread y) (spread x)) eqn:E; auto.
  simpl. simpl in IH. rewrite IH.
  destruct (Qeq_bool (spread x) v) eqn:Ex; auto.
  destruct (Qeq_bool (spread y) v) eqn:Ey; auto.
  exfalso. apply Qgtb_lt in E.
  apply Qeq_bool_iff in Ex. apply Qeq_bool_iff in Ey.
  apply (Qlt_not_eq _ _ E). now rewrite Ex, Ey.
Qed.

Lemma with_spread_sorted (v : Q) (xs : list MarketSnapshot) :
  with_spread v (sorted_by_spread_desc xs) = with_spread v xs.
Proof.
  induction xs as [| x r IH]; simpl; auto.
  rewrite with_spread_insert_desc. simpl. now rewrite IH.
Qed.

(** Two lists in non-increasing order of spread that hold the same entries
    of each spread, in the same order, are the same list. *)
Lemma stable_desc_unique (l1 l2 : list MarketSnapshot) :
  StronglySorted spread_ge l1 -> StronglySorted spread_ge l2 ->
  (forall v, with_spread v l1 = with_spread v l2) -> l1 = l2.
Proof.
  assert (Hhead : forall a l, with_spread (spread a) (a :: l) = a :: with_spread (spread a) l).
  { intros a l. simpl. now rewrite Qeq_bool_refl. }
  assert (Hle : forall a b r1 r2,
             StronglySorted spread_ge (b :: r2) ->
             with_spread (spread a) (a :: r1) = with_spread (spread a) (b :: r2) ->
             spread a <= spread b).
  { intros a b r1 r2 Hs Heq. rewrite Hhead in Heq.
    assert (Hin : In a (with_spread (spread a) (b :: r2))) by (rewrite <- Heq; now left).
    apply filter_In in Hin as [[-> | Hin] _]; [apply Qle_refl |].
    inversion Hs as [| ? ? _ Hall]; subst.
    rewrite Forall_forall in Hall. exact (Hall a Hin). }
  intros H1. revert l2. induction H1 as [| a r1 Hr1 IH Ha]; intros l2 H2 Hf.
  - destruct l2 as [| b r2]; [reflexivity |].
    specialize (Hf (spread b)). rewrite Hhead in Hf. discriminate.
  - destruct l2 as [| b r2].
    { specialize (Hf (spread a)). rewrite Hhead in Hf. discriminate. }
    assert (Hab : spread a == spread b).
    { apply Qle_antisym.
      - exact (Hle a b r1 r2 H2 (Hf (spread a))).
      - apply (Hle b a r2 r1); [constructor; auto | symmetry; apply Hf]. }
    assert (a = b).
    { pose proof (Hf (spread a)) as Hv. rewrite Hhead in Hv. simpl in Hv.
      rewrite (Qeq_eq_bool _ _ (Qeq_sym _ _ Hab)) in Hv. congruence. }
    subst b. f_equal. apply IH.
    + now inversion H2.
    + intros v. specialize (Hf v). simpl in Hf.
      destruct (Qeq_bool (spread a) v); congruence.
Qed.

(** So the result of a stable sort by descending spread is the list that
    [sorted_by_spread_desc] computes. *)
Lemma sorted_by_spread_desc_unique (xs out : list MarketSnapshot) :
  StronglySorted spread_ge out ->
  (forall v, with_spread v out = with_spread v xs) ->
  out = sorted_by_spread_desc xs.
Proof.
  intros Hs Hst. apply stable_desc_unique; auto.
  - apply sorted_by_spread_desc_sorted.
  - intros v. now rewrite with_spread_sorted.
Qed.

(** A slice [l[:n]] is a prefix of [l]. *)
Lemma slice_to_prefix {A : Type} (l : list A) (n : Z) :
  exists rest, l = slice_to l n ++ rest.
Proof.
  unfold slice_to. destruct (0 <=? n)%Z.
  - exists (skipn (Z.to_nat n) l). symmetry. apply firstn_skipn.
  - exists (skipn (Z.to_nat (Z.of_nat (List.length l) + n)) l).
    symmetry. apply firstn_skipn.
Qed.

Lemma slice_to_length {A : Type} (l : list A) (n : Z) :
  (0 <= n)%Z -> List.length (slice_to l n) = Nat.min (Z.to_nat n) (List.length l).
Proof.
  intros Hn. unfold slice_to.
  destruct (Z.leb_spec 0 n); [| lia]. apply length_firstn.
Qed.

Lemma StronglySorted_app_l {A : Type} (R : A -> A -> Prop) (l1 l2 : list A) :
  StronglySorted R (l1 ++ l2) -> StronglySorted R l1.
Proof.
  induction l1 as [| x r IH]; simpl; intros H.
  - constructor.
  - inversion H as [| ? ? Hs Hf]; subst. constructor; auto.
    apply Forall_app in Hf. tauto.
Qed.

(** The message loop is a run of [on_message] steps over the messages up to
    the first one that raises. *)
Lemma connect_clob_ws_steps (store : Dict.t MarketSnapshot) (messages : list WsMessage) :
  exists done rest,
    messages = done ++ rest /\
    snd (connect_clob_ws store messages) = fold_left step (map Streamed done) store.
Proof.
  revert store. induction messages as [| data r IH]; intros store; simpl.
  - exists [], []. auto.
  - destruct (on_message store data) as [[u | e] store'] eqn:Hm.
    + destruct (IH store') as (done & rest & -> & Hs).
      exists (data :: done), rest. split; [reflexivity |].
      simpl. now rewrite Hm.
    + exists [data], r. split; [reflexivity |]. simpl. now rewrite Hm.
Qed.

(** ** The spread of a stored market *)

(** The constructor call of the snapshot path computes the spread from the two
    prices it stores. *)
Lemma make_snapshot_spread_exact (m : GammaMarket) (s : MarketSnapshot) :
  make_snapshot m = Ok s -> spread s = Qabs (yes_price s - no_price s).
Proof.
  intros H. apply make_snapshot_Ok in H as (i & y & n & v & c & _ & _ & _ & _ & _ & ->).
  reflexivity.
Qed.

Lemma fetch_returns_exact_spread (store : Dict.t MarketSnapshot) (data : GammaResponse)
    (markets : list MarketSnapshot) :
  fst (fetch_politics_markets store data) = Ok markets -> Forall spread_exact markets.
Proof.
  unfold fetch_politics_markets.
  destruct (collect_markets _) as [ms | e] eqn:Hc; simpl; [| discriminate].
  intros H. inversion H; subst.
  eapply Forall_impl; [| apply collect_markets_Ok; exact Hc].
  intros s (m & _ & _ & Hm). unfold spread_exact.
  now rewrite (make_snapshot_spread_exact m s Hm).
Qed.

(** C1 does not hold of the code: market A is fetched with prices 0.9 and 0.1, so
    its spread is 0.8 and equals abs(yes - no); the orderbook update
    A -> (0.2, 0.8) then assigns both prices and leaves the attribute [spread]
    at 0.8, while abs(0.2 - 0.8) is 0.6. *)
Theorem stream_update_leaves_spread_stale :
  let store := run [Fetched (response [market_record "A" 0.9 0.1 2000000])] in
  let store' := snd (on_message store (orderbook_update "A" 0.2 0.8)) in
  exists m m',
    Dict.get store "A" = Some m /\ spread_exact m /\
    Dict.get store' "A" = Some m' /\
    yes_price m' = 0.2 /\ no_price m' = 0.8 /\
    spread m' == 0.8 /\ Qabs (yes_price m' - no_price m') == 0.6 /\
    ~ spread_exact m'.
Proof.
  cbv zeta. eexists. eexists.
  split; [vm_compute; reflexivity |].
  split; [vm_compute; reflexivity |].
  split; [vm_compute; reflexivity |].
  split; [reflexivity |].
  split; [reflexivity |].
  split; [vm_compute; reflexivity |].
  split; [vm_compute; reflexivity |].
  vm_compute. discriminate.
Qed.

(** ** Stream updates: frame properties *)

(** C5: an orderbook update whose market_id is not a key of the store leaves
    the store as it was: same entries, same size, and no entry for the id. *)
Theorem on_message_unknown_id_noop
    (store : Dict.t MarketSnapshot) (data : WsMessage) (k : string) :
  j_market_id data = Some k -> Dict.contains store k = false ->
  snd (on_message store data) = store /\
  List.length (snd (on_message store data)) = List.length store /\
  Dict.get (snd (on_message store data)) k = None.
Proof.
  intros Hk Habs.
  assert (Hsame : snd (on_message store data) = store).
  { unfold on_message. rewrite Hk, Habs.
    destruct (is_orderbook_update data); reflexivity. }
  rewrite Hsame. repeat split.
  unfold Dict.contains in Habs. destruct (Dict.get store k); [discriminate | reflexivity].
Qed.

Lemma on_message_unknown_id_noop_witness :
  (j_market_id (orderbook_update "Z" 0.2 0.8) = Some "Z" /\
   Dict.contains scenario_store "Z" = false) /\
  (snd (on_message scenario_store (orderbook_update "Z" 0.2 0.8)) = scenario_store /\
   List.length (snd (on_message scenario_store (orderbook_update "Z" 0.2 0.8))) =
     List.length scenario_store /\
   Dict.get (snd (on_message scenario_store (orderbook_update "Z" 0.2 0.8))) "Z" = None).
Proof.
  split.
  - split; reflexivity.
  - apply (on_message_unknown_id_noop scenario_store (orderbook_update "Z" 0.2 0.8) "Z");
      reflexivity.
Defined.

(** C6: an orderbook update whose market_id is a key of the store leaves every
    other entry and the order of the keys as they were, and keeps the
    market_id, volume_usd and category of the entry it writes. *)
Theorem on_message_known_id_frame
    (store : Dict.t MarketSnapshot) (data : WsMessage) (k : string) (m : MarketSnapshot) :
  j_market_id data = Some k -> Dict.get store k = Some m ->
  let store' := snd (on_message store data) in
  (forall k', k' <> k -> Dict.get store' k' = Dict.get store k') /\
  Dict.keys store' = Dict.keys store /\
  exists m', Dict.get store' k = Some m' /\
    market_id m' = market_id m /\ volume_usd m' = volume_usd m /\
    category m' = category m.
Proof.
  intros Hk Hm store'. subst store'.
  destruct (on_message_cases store data)
    as [-> | (k0 & y & Hk0 & _ & _ & [[_ ->] | (n & _ & ->)])].
  - repeat split; auto. exists m. auto.
  - assert (k0 = k) by congruence. subst k0. repeat split.
    + intros k' Hne. apply DictFacts.get_modify_ne. congruence.
    + apply DictFacts.keys_modify.
    + rewrite DictFacts.get_modify_eq, Hm. simpl. eauto.
  - assert (k0 = k) by congruence. subst k0. repeat split.
    + intros k' Hne. rewrite !DictFacts.get_modify_ne by congruence. reflexivity.
    + rewrite !DictFacts.keys_modify. reflexivity.
    + rewrite !DictFacts.get_modify_eq, Hm. simpl. eauto.
Qed.

Lemma on_message_known_id_frame_witness :
  let m := mkMarketSnapshot "B" 0.5 0.5 (Qabs (0.5 - 0.5)) 2000000 "politics" in
  let store' := snd (on_message scenario_store (orderbook_update "B" 0.2 0.8)) in
  (j_market_id (orderbook_update "B" 0.2 0.8) = Some "B" /\
   Dict.get scenario_store "B" = Some m) /\
  ((forall k', k' <> "B" -> Dict.get store' k' = Dict.get scenario_store k') /\
   Dict.keys store' = Dict.keys scenario_store /\
   exists m', Dict.get store' "B" = Some m' /\
     market_id m' = market_id m /\ volume_usd m' = volume_usd m /\
     category m' = category m).
Proof.
  split.
  - split; reflexivity.
  - apply (on_message_known_id_frame scenario_store (orderbook_update "B" 0.2 0.8) "B");
      reflexivity.
Defined.

(** ** Snapshot ingestion *)

(** C7: upserting a batch a second time changes nothing, and so does fetching
    the same response a second time. *)
Theorem upsert_snapshot_idempotent :
  (forall (store : Dict.t MarketSnapshot) (markets : list MarketSnapshot),
     upsert_snapshot (upsert_snapshot store markets) markets =
     upsert_snapshot store markets) /\
  (forall (store : Dict.t MarketSnapshot) (data : GammaResponse),
     snd (fetch_politics_markets (snd (fetch_politics_markets store data)) data) =
     snd (fetch_politics_markets store data)).
Proof.
  assert (Hup : forall store markets,
             upsert_snapshot (upsert_snapshot store markets) markets =
             upsert_snapshot store markets).
  { intros store markets. unfold upsert_snapshot.
    apply DictFacts.update_idempotent, by_market_id_NoDup. }
  split; [exact Hup |].
  intros store data. unfold fetch_politics_markets.
  destruct (collect_markets _) as [markets | e]; simpl.
  - apply Hup.
  - reflexivity.
Qed.

Lemma make_snapshot_volume (m : GammaMarket) (s : MarketSnapshot) :
  above_volume m = true -> make_snapshot m = Ok s -> volume_above_threshold s.
Proof.
  intros Hv H.
  apply make_snapshot_Ok in H as (i & y & n & v & c & _ & _ & _ & Hvol & _ & ->).
  unfold above_volume in Hv. rewrite Hvol in Hv. simpl in Hv.
  unfold volume_above_threshold. simpl. now apply Qgtb_lt.
Qed.

(** Folding a step function that keeps a property of all items. *)
Lemma run_Forall (P : string * MarketSnapshot -> Prop) :
  (forall store ev, Forall P store -> Forall P (step store ev)) ->
  forall evs, Forall P (run evs).
Proof.
  intros Hstep evs. unfold run.
  assert (H : forall store, Forall P store -> Forall P (fold_left step evs store)).
  { induction evs as [| ev r IH]; intros store Hs; simpl; auto. }
  apply H. constructor.
Qed.

(** C8: every market a fetch returns has a volume above 1,000,000; every
    entry of the store after the fetch is an entry the store had before or has
    such a volume; a fetch that raises returns no market and leaves the store
    as it was; a record whose volume is at most 1,000,000 is filtered out, the
    fetch doing what it does on the batch without it; so every entry of a
    store built from the empty one has a volume above the threshold. *)
Theorem fetch_keeps_volume_above_threshold :
  (forall (store : Dict.t MarketSnapshot) (data : GammaResponse),
     match fetch_politics_markets store data with
     | (Ok markets, store') =>
         Forall volume_above_threshold markets /\
         Forall (fun kv => In kv store \/ volume_above_threshold (snd kv)) store'
     | (Raise _, store') => store' = store
     end) /\
  (forall (m : GammaMarket) store pre post,
     get_default (j_volume24h m) 0 <= 1000000 ->
     fetch_politics_markets store (response (pre ++ m :: post)) =
     fetch_politics_markets store (response (pre ++ post))) /\
  (forall evs, Forall (fun kv => volume_above_threshold (snd kv)) (run evs)).
Proof.
  split; [| split].
  2: { intros m store pre post Hle.
       unfold fetch_politics_markets, response. simpl.
       rewrite collect_markets_skip; [reflexivity |].
       unfold above_volume. now apply Qgtb_false_le. }
  - intros store data.
    pose proof (fetch_Forall
                  (fun kv => In kv store \/ volume_above_threshold (snd kv)) store data) as HF.
    unfold fetch_politics_markets in *.
    destruct (collect_markets _) as [markets | e] eqn:Hc; simpl in *; [| reflexivity].
    split.
    + eapply Forall_impl; [| apply collect_markets_Ok; exact Hc].
      intros s (m & _ & Hv & Hm). eapply make_snapshot_volume; eauto.
    + apply HF.
      * apply Forall_forall. auto.
      * intros m s _ Hv Hm. right. eapply make_snapshot_volume; eauto.
  - apply run_Forall. intros store [data | data] Hs; simpl.
    + apply fetch_Forall; auto.
      intros m s _ Hv Hm. eapply make_snapshot_volume; eauto.
    + apply on_message_Forall; auto.
Qed.

Lemma fetch_keeps_volume_above_threshold_witness :
  get_default (j_volume24h (market_record "D" 1 0 1000000)) 0 <= 1000000 /\
  fetch_politics_markets scenario_store
    (response ([market_record "A" 0.6 0.4 3000000] ++
               market_record "D" 1 0 1000000 :: [])) =
  fetch_politics_markets scenario_store
    (response ([market_record "A" 0.6 0.4 3000000] ++ [])).
Proof.
  assert (Hle : get_default (j_volume24h (market_record "D" 1 0 1000000)) 0 <= 1000000).
  { vm_compute. discriminate. }
  split; [exact Hle |].
  exact (proj1 (proj2 fetch_keeps_volume_above_threshold)
           (market_record "D" 1 0 1000000) scenario_store
           [market_record "A" 0.6 0.4 3000000] [] Hle).
Defined.

(** C9: every key of the store maps to a market whose market_id is that key:
    in every store built from the empty one, and across a fetch and across a
    stream message from any store that has the property. *)
Theorem store_key_coherent :
  (forall evs, Forall key_coherent (run evs)) /\
  (forall store data,
     Forall key_coherent store ->
     Forall key_coherent (snd (fetch_politics_markets store data))) /\
  (forall store data,
     Forall key_coherent store ->
     Forall key_coherent (snd (on_message store data))).
Proof.
  assert (Hf : forall store data,
             Forall key_coherent store ->
             Forall key_coherent (snd (fetch_politics_markets store data))).
  { intros store data Hs. apply fetch_Forall; auto.
    intros m s _ _ _. reflexivity. }
  assert (Hm : forall store data,
             Forall key_coherent store ->
             Forall key_coherent (snd (on_message store data))).
  { intros store data Hs. apply on_message_Forall; auto. }
  split; [| split]; auto.
  apply run_Forall. intros store [data | data]; simpl; auto.
Qed.

Lemma store_key_coherent_witness :
  Forall key_coherent [("A", mkMarketSnapshot "A" 0.9 0.1 0.8 2000000 "politics")] /\
  Forall key_coherent
    (snd (on_message [("A", mkMarketSnapshot "A" 0.9 0.1 0.8 2000000 "politics")]
            (orderbook_update "A" 0.2 0.8))).
Proof.
  assert (H : Forall key_coherent
                [("A", mkMarketSnapshot "A" 0.9 0.1 0.8 2000000 "politics")]).
  { constructor; [reflexivity | constructor]. }
  split; [exact H |].
  exact (proj2 (proj2 store_key_coherent) _ (orderbook_update "A" 0.2 0.8) H).
Defined.


(** C10: a record without the key "volume24h" is given the volume 0, fails
    the volume test, and a fetch of a batch that holds it does what the fetch
    of the batch without it does. *)
Theorem record_without_volume_is_excluded (m : GammaMarket) :
  j_volume24h m = None ->
  get_default (j_volume24h m) 0 = 0 /\
  above_volume m = false /\
  forall store pre post,
    fetch_politics_markets store (response (pre ++ m :: post)) =
    fetch_politics_markets store (response (pre ++ post)).
Proof.
  intros Hnone.
  assert (Hv : above_volume m = false).
  { unfold above_volume. rewrite Hnone. reflexivity. }
  split; [now rewrite Hnone |]. split; [exact Hv |].
  intros store pre post. unfold fetch_politics_markets, response. simpl.
  now rewrite collect_markets_skip.
Qed.

Lemma record_without_volume_is_excluded_witness :
  j_volume24h (no_volume_record "N" 0.9 0.1) = None /\
  fetch_politics_markets Dict.empty
    (response ([market_record "A" 0.9 0.1 2000000] ++
               no_volume_record "N" 0.9 0.1 :: [market_record "C" 0.7 0.35 2000000])) =
  fetch_politics_markets Dict.empty
    (response ([market_record "A" 0.9 0.1 2000000] ++ [market_record "C" 0.7 0.35 2000000])).
Proof.
  split; [reflexivity |].
  apply (record_without_volume_is_excluded (no_volume_record "N" 0.9 0.1)).
  reflexivity.
Defined.

(** ** Records without two outcome prices *)

(** C3, as stated, fails: in the batch [A; B] the record B is above the
    volume threshold and has one outcome.  The fetch raises IndexError, returns
    nothing and ingests nothing, although A alone is fetched and ingested. *)
Lemma short_record_aborts_fetch :
  lacks_two_prices (one_outcome_record "B" 0.5 2000000) /\
  fetch_politics_markets Dict.empty
    (response [market_record "A" 0.9 0.1 2000000; one_outcome_record "B" 0.5 2000000]) =
  (Raise IndexError, Dict.empty) /\
  exists a,
    fetch_politics_markets Dict.empty (response [market_record "A" 0.9 0.1 2000000]) =
    (Ok [a], [("A", a)]).
Proof.
  split; [| split].
  - right. exists IndexError. reflexivity.
  - reflexivity.
  - eexists. reflexivity.
Qed.

(** C3, amended: a record without two outcome prices that fails the volume
    test is passed over, and the fetch does what it does on the batch without
    it; one that passes the volume test makes the whole fetch raise, and the
    store is left as it was. *)
Theorem record_lacking_prices_skipped_or_fatal (m : GammaMarket) :
  lacks_two_prices m ->
  forall store pre post,
    (above_volume m = false ->
     fetch_politics_markets store (response (pre ++ m :: post)) =
     fetch_politics_markets store (response (pre ++ post))) /\
    (above_volume m = true ->
     exists e,
       fetch_politics_markets store (response (pre ++ m :: post)) = (Raise e, store)).
Proof.
  intros Hlack store pre post. split; intros Hv.
  - unfold fetch_politics_markets, response. simpl.
    now rewrite collect_markets_skip.
  - destruct (make_snapshot_lacks m Hlack) as [e He].
    destruct (collect_markets_raise pre post m e Hv He) as [e' He'].
    exists e'. unfold fetch_politics_markets, response. simpl.
    now rewrite He'.
Qed.

Lemma record_lacking_prices_skipped_or_fatal_witness :
  lacks_two_prices (one_outcome_record "B" 0.5 2000000) /\
  above_volume (one_outcome_record "B" 0.5 2000000) = true /\
  exists e,
    fetch_politics_markets scenario_store
      (response ([market_record "A" 0.9 0.1 2000000] ++
                 one_outcome_record "B" 0.5 2000000 :: [])) = (Raise e, scenario_store).
Proof.
  assert (Hlack : lacks_two_prices (one_outcome_record "B" 0.5 2000000)).
  { right. exists IndexError. reflexivity. }
  split; [exact Hlack |]. split; [reflexivity |].
  apply (record_lacking_prices_skipped_or_fatal
           (one_outcome_record "B" 0.5 2000000) Hlack scenario_store
           [market_record "A" 0.9 0.1 2000000] []).
  reflexivity.
Defined.

(** ** Ranges of the stored numbers *)








(** ** The ranked query *)

(** The spec's scenario: of A (0.8), B (0) and C (0.35) the top two are A
    and C. *)
Example top_two_of_scenario :
  map market_id (get_top_mispricing scenario_store 2) = ["A"; "C"].
Proof. reflexivity. Qed.

(** C2, as stated, fails on the tie-break: A is fetched first, B by a later
    fetch, both with spread 0.  B was written later than A, and the query
    returns A before B. *)
Lemma ties_are_not_newer_first :
  let evs := [Fetched (response [market_record "A" 0.5 0.5 2000000]);
              Fetched (response [market_record "B" 0.5 0.5 2000000])] in
  map market_id (get_top_mispricing (run evs) 2) = ["A"; "B"] /\
  last_updated evs "A" = Some 0%nat /\
  last_updated evs "B" = Some 1%nat /\
  ~ newer_first_on_ties evs 2.
Proof.
  cbv zeta. repeat split; try reflexivity.
  intros H.
  specialize (H 1%nat 0%nat
                (mkMarketSnapshot "B" 0.5 0.5 (Qabs (0.5 - 0.5)) 2000000 "politics")
                (mkMarketSnapshot "A" 0.5 0.5 (Qabs (0.5 - 0.5)) 2000000 "politics")
                1%nat 0%nat).
  assert (Hlt : (1 < 0)%nat).
  { apply H; try reflexivity. apply Nat.lt_0_1. }
  inversion Hlt.
Qed.

(** C2, amended: on a store whose spreads are finite numbers (the numbers of
    this model; a [nan] spread, which a fetch of infinite prices stores, is
    not ordered and is outside the statement) the query returns a list in
    non-increasing order of spread
    that is the front of such an ordering of all the stored markets; for
    [top_n >= 0] it has min(top_n, size of the store) entries, so all of them
    when the store holds fewer than [top_n]; entries of equal spread come in
    the order the store holds them (the order in which their keys were first
    inserted), whatever was written last.  The query is a total function: it
    raises nothing. *)
Theorem get_top_mispricing_sorted_stable
    (store : Dict.t MarketSnapshot) (top_n : Z) :
  let out := get_top_mispricing store top_n in
  StronglySorted spread_ge out /\
  (exists rest, Permutation (out ++ rest) (Dict.values store) /\
                StronglySorted spread_ge (out ++ rest)) /\
  ((0 <= top_n)%Z ->
   List.length out = Nat.min (Z.to_nat top_n) (List.length store)) /\
  ((Z.of_nat (List.length store) <= top_n)%Z ->
   Permutation out (Dict.values store)) /\
  (forall v, exists rest,
     with_spread v (Dict.values store) = with_spread v out ++ rest).
Proof.
  intros out. subst out. unfold get_top_mispricing.
  set (all := sorted_by_spread_desc (Dict.values store)).
  assert (Hsorted : StronglySorted spread_ge all)
    by apply sorted_by_spread_desc_sorted.
  assert (Hperm : Permutation all (Dict.values store))
    by apply sorted_by_spread_desc_perm.
  assert (Hlen : List.length all = List.length store).
  { rewrite (Permutation_length Hperm). unfold Dict.values. apply length_map. }
  destruct (slice_to_prefix all top_n) as [rest Hrest].
  split; [| split; [| split; [| split]]].
  - apply (StronglySorted_app_l _ _ rest). now rewrite <- Hrest.
  - exists rest. rewrite <- Hrest. auto.
  - intros Hn. rewrite slice_to_length by exact Hn. now rewrite Hlen.
  - intros Hn. unfold slice_to.
    destruct (Z.leb_spec 0 top_n); [| lia].
    rewrite firstn_all2 by lia. exact Hperm.
  - intros v. exists (with_spread v rest).
    rewrite <- (with_spread_sorted v (Dict.values store)). fold all.
    rewrite Hrest at 1. unfold with_spread. apply filter_app.
Qed.

Lemma get_top_mispricing_sorted_stable_witness :
  (0 <= 2)%Z /\
  List.length (get_top_mispricing scenario_store 2) =
    Nat.min (Z.to_nat 2) (List.length scenario_store).
Proof.
  assert (H : (0 <= 2)%Z) by discriminate.
  split; [exact H |].
  exact (proj1 (proj2 (proj2 (get_top_mispricing_sorted_stable scenario_store 2))) H).
Defined.

(** * More of the code *)

(** ** More facts about the dictionary *)

Module DictMore.
Section WithValue.
Context {V : Type}.
Implicit Types (d : Dict.t V) (k : string) (v : V).

Lemma get_None_iff d k : Dict.get d k = None <-> ~ In k (Dict.keys d).
Proof.
  induction d as [| [k' v'] r IH]; simpl.
  - tauto.
  - destruct (String.eqb_spec k' k) as [-> | Hk].
    + split; [discriminate | tauto].
    + rewrite IH. tauto.
Qed.

Lemma contains_iff d k : Dict.contains d k = true <-> In k (Dict.keys d).
Proof.
  unfold Dict.contains. destruct (Dict.get d k) eqn:E.
  - split; auto. intros _.
    destruct (in_dec string_dec k (Dict.keys d)) as [Hin | Hout]; auto.
    apply get_None_iff in Hout. congruence.
  - apply get_None_iff in E. split; [discriminate | tauto].
Qed.

(** [d[k] = v] keeps the keys where they are and puts a new key last. *)
Lemma keys_setitem d k v :
  Dict.keys (Dict.setitem d k v) =
  Dict.keys d ++ (if Dict.contains d k then [] else [k]).
Proof.
  unfold Dict.contains.
  induction d as [| [k' v'] r IH]; simpl; auto.
  destruct (String.eqb_spec k' k) as [-> | Hk]; simpl.
  - now rewrite app_nil_r.
  - now rewrite IH.
Qed.

Lemma keys_update d other :
  exists new, Dict.keys (Dict.update d other) = Dict.keys d ++ new.
Proof.
  revert d. induction other as [| [k v] r IH]; intros d; simpl.
  - exists []. now rewrite app_nil_r.
  - destruct (IH (Dict.setitem d k v)) as [new Hnew].
    fold (Dict.update (Dict.setitem d k v) r). rewrite Hnew, keys_setitem.
    rewrite <- app_assoc. eauto.
Qed.

Lemma keys_update_In d other k :
  In k (Dict.keys (Dict.update d other)) <->
  In k (Dict.keys d) \/ In k (Dict.keys other).
Proof.
  revert d. induction other as [| [k0 v0] r IH]; intros d; simpl.
  - tauto.
  - fold (Dict.update (Dict.setitem d k0 v0) r). rewrite IH, keys_setitem, in_app_iff.
    destruct (Dict.contains d k0) eqn:E; simpl.
    + apply contains_iff in E. split; [tauto |].
      intros [H | [H | H]]; subst; auto.
    + tauto.
Qed.

(** Looking a key up after [update]: the other dictionary first. *)
Lemma get_update d other k :
  NoDup (Dict.keys other) ->
  Dict.get (Dict.update d other) k =
  match Dict.get other k with
  | Some v => Some v
  | None => Dict.get d k
  end.
Proof.
  revert d. induction other as [| [k0 v0] r IH]; intros d Hnd; simpl; auto.
  inversion Hnd as [| ? ? Hout Hr]; subst.
  fold (Dict.update (Dict.setitem d k0 v0) r). rewrite IH by assumption.
  destruct (String.eqb_spec k0 k) as [-> | Hk].
  - apply get_None_iff in Hout. rewrite Hout. apply DictFacts.get_setitem_eq.
  - destruct (Dict.get r k); auto. now apply DictFacts.get_setitem_ne.
Qed.

Lemma values_modify_map d k (f : V -> V) (g : V -> string * Q * Q * string) :
  (forall v, g (f v) = g v) ->
  map g (Dict.values (Dict.modify d k f)) = map g (Dict.values d).
Proof.
  intros Hg. induction d as [| [k' v'] r IH]; simpl; auto.
  destruct (String.eqb k' k); simpl.
  - now rewrite Hg.
  - now rewrite IH.
Qed.
End WithValue.
End DictMore.

Lemma find_app_first {A : Type} (f : A -> bool) (l1 l2 : list A) :
  find f (l1 ++ l2) =
  match find f l1 with
  | Some x => Some x
  | None => find f l2
  end.
Proof.
  induction l1 as [| a r IH]; simpl; auto.
  destruct (f a); auto.
Qed.

(** The comprehension keeps, for each id, the last market that has it. *)
Lemma get_by_market_id_from (markets : list MarketSnapshot)
    (acc : Dict.t MarketSnapshot) (k : string) :
  Dict.get (fold_left (fun acc m => Dict.setitem acc (market_id m) m) markets acc) k =
  match last_with_id k markets with
  | Some m => Some m
  | None => Dict.get acc k
  end.
Proof.
  unfold last_with_id. revert acc.
  induction markets as [| m r IH]; intros acc; simpl; auto.
  rewrite IH, find_app_first.
  destruct (find _ (rev r)); auto. simpl.
  destruct (String.eqb_spec (market_id m) k) as [<- | Hk].
  - apply DictFacts.get_setitem_eq.
  - now apply DictFacts.get_setitem_ne.
Qed.

Lemma get_by_market_id (markets : list MarketSnapshot) (k : string) :
  Dict.get (by_market_id markets) k = last_with_id k markets.
Proof.
  unfold by_market_id. rewrite get_by_market_id_from.
  destruct (last_with_id k markets); reflexivity.
Qed.

Lemma get_upsert_snapshot (store : Dict.t MarketSnapshot)
    (markets : list MarketSnapshot) (k : string) :
  Dict.get (upsert_snapshot store markets) k =
  match last_with_id k markets with
  | Some m => Some m
  | None => Dict.get store k
  end.
Proof.
  unfold upsert_snapshot.
  rewrite DictMore.get_update by apply by_market_id_NoDup.
  now rewrite get_by_market_id.
Qed.

Lemma last_with_id_Some (k : string) (markets : list MarketSnapshot) (m : MarketSnapshot) :
  last_with_id k markets = Some m -> In m markets /\ market_id m = k.
Proof.
  unfold last_with_id. intros H. apply find_some in H as [Hin Hk].
  split; [now apply in_rev | now apply String.eqb_eq].
Qed.

Lemma last_with_id_In (k : string) (markets : list MarketSnapshot) :
  In k (map market_id markets) -> exists m, last_with_id k markets = Some m.
Proof.
  intros Hin. unfold last_with_id.
  destruct (find _ (rev markets)) as [m |] eqn:E; [eauto |].
  apply in_map_iff in Hin as (m & <- & Hm).
  pose proof (find_none _ _ E m (proj1 (in_rev _ _) Hm)) as Hf.
  simpl in Hf. now rewrite String.eqb_refl in Hf.
Qed.

(** ** When a fetch succeeds *)

Lemma above_volume_has_volume (m : GammaMarket) :
  above_volume m = true -> exists v, j_volume24h m = Some v /\ 1000000 < v.
Proof.
  unfold above_volume. destruct (j_volume24h m) as [v |]; simpl; intros H.
  - exists v. split; [reflexivity | now apply Qgtb_lt].
  - discriminate.
Qed.

Lemma make_snapshot_complete (m : GammaMarket) :
  above_volume m = true ->
  (exists s, make_snapshot m = Ok s) <-> complete_record m.
Proof.
  intros Hv. destruct (above_volume_has_volume m Hv) as (v & Hvol & _).
  unfold complete_record. split.
  - intros [s Hs].
    apply make_snapshot_Ok in Hs as (i & y & n & v' & c & Hi & Hy & Hn & _ & Hc & _).
    rewrite Hi, Hc. repeat split; eauto; discriminate.
  - intros (Hi & [y Hy] & [n Hn] & Hc). unfold make_snapshot.
    destruct (j_id m) as [i |]; [| congruence].
    destruct (j_category m) as [c |]; [| congruence].
    rewrite Hy, Hn, Hvol. simpl. eauto.
Qed.

Lemma collect_markets_Ok_iff (ms : list GammaMarket) :
  (exists markets, collect_markets ms = Ok markets) <->
  Forall (fun m => above_volume m = true -> complete_record m) ms.
Proof.
  induction ms as [| m rest IH]; simpl.
  - split; [constructor | eauto].
  - destruct (above_volume m) eqn:Hv.
    + split.
      * intros [markets H].
        apply bind_Ok in H as (s & Hs & H). apply bind_Ok in H as (tl & Htl & _).
        constructor.
        -- intros _. apply make_snapshot_complete; eauto.
        -- apply IH. eauto.
      * intros H. inversion H as [| ? ? Hm Hrest]; subst.
        destruct (proj2 (make_snapshot_complete m Hv) (Hm Hv)) as [s Hs].
        apply IH in Hrest as [tl Htl]. rewrite Hs, Htl. simpl. eauto.
    + rewrite IH. split.
      * intros H. constructor; [intros Ht; congruence | exact H].
      * intros H. now inversion H.
Qed.

(** X1: A fetch that returns normally has found every record above the
    volume threshold with an id, a price in each of its first two outcomes
    and a category; what the records at or below the threshold lack does not
    matter. *)
Theorem fetch_success_needs_complete_records
    (store : Dict.t MarketSnapshot) (data : GammaResponse)
    (markets : list MarketSnapshot) :
  fst (fetch_politics_markets store data) = Ok markets ->
  Forall (fun m => above_volume m = true -> complete_record m)
    (get_default (j_markets data) []).
Proof.
  unfold fetch_politics_markets.
  destruct (collect_markets _) as [ms | e] eqn:Hc; simpl; [| discriminate].
  intros _. apply collect_markets_Ok_iff. eauto.
Qed.

Lemma fetch_success_needs_complete_records_witness :
  let data := response [market_record "A" 0.9 0.1 2000000; bare_record 5] in
  exists markets,
    fst (fetch_politics_markets Dict.empty data) = Ok markets /\
    Forall (fun m => above_volume m = true -> complete_record m)
      (get_default (j_markets data) []).
Proof.
  cbv zeta. eexists. split; [reflexivity |].
  exact (fetch_success_needs_complete_records Dict.empty
           (response [market_record "A" 0.9 0.1 2000000; bare_record 5]) _ eq_refl).
Defined.



(** X3: The returned list has one market per record above the threshold, in the
    order of the response, with the id, the volume and the category of its
    record; ids that repeat in the response repeat in the list. *)
Theorem fetch_returns_filtered_in_order
    (store : Dict.t MarketSnapshot) (data : GammaResponse)
    (markets : list MarketSnapshot) :
  fst (fetch_politics_markets store data) = Ok markets ->
  let kept := filter above_volume (get_default (j_markets data) []) in
  map (fun s => Some (market_id s)) markets = map j_id kept /\
  map (fun s => Some (volume_usd s)) markets = map j_volume24h kept /\
  map (fun s => Some (category s)) markets = map j_category kept /\
  List.length markets = List.length kept.
Proof.
  unfold fetch_politics_markets.
  destruct (collect_markets _) as [ms' | e] eqn:Hc; simpl; [| discriminate].
  intros H. inversion H; subst ms'. clear H.
  revert markets Hc.
  induction (get_default (j_markets data) []) as [| m rest IH]; simpl; intros markets Hc.
  - inversion Hc. repeat split.
  - destruct (above_volume m) eqn:Hv; [| now apply IH].
    apply bind_Ok in Hc as (s & Hs & Hc). apply bind_Ok in Hc as (tl & Htl & Hc).
    inversion Hc; subst markets.
    destruct (IH tl Htl) as (H1 & H2 & H3 & H4).
    apply make_snapshot_Ok in Hs as (i & y & n & v & c & Hi & _ & _ & Hvol & Hcat & ->).
    simpl. rewrite H1, H2, H3, H4, Hi, Hvol, Hcat. repeat split.
Qed.

Lemma fetch_returns_filtered_in_order_witness :
  let data := response [market_record "A" 0.9 0.1 2000000;
                        market_record "D" 1 0 10;
                        market_record "A" 0.6 0.4 3000000] in
  exists markets,
    fst (fetch_politics_markets Dict.empty data) = Ok markets /\
    map (fun s => Some (market_id s)) markets = [Some "A"; Some "A"] /\
    List.length markets = 2%nat.
Proof.
  cbv zeta. eexists. split; [reflexivity |].
  pose proof (fetch_returns_filtered_in_order Dict.empty
                (response [market_record "A" 0.9 0.1 2000000;
                           market_record "D" 1 0 10;
                           market_record "A" 0.6 0.4 3000000]) _ eq_refl) as H.
  cbv zeta in H. destruct H as (H1 & _ & _ & H4).
  split; [exact H1 | exact H4].
Defined.

(** X4: After a fetch that returned [markets], the entry of an id is the last
    market of the list with that id, and the entry the store had when no
    returned market has the id: what the stream wrote to a returned market is
    overwritten, a market that is not returned is left as it is. *)
Theorem fetch_lookup_last_wins
    (store : Dict.t MarketSnapshot) (data : GammaResponse)
    (markets : list MarketSnapshot) :
  fst (fetch_politics_markets store data) = Ok markets ->
  forall k,
    Dict.get (snd (fetch_politics_markets store data)) k =
    match last_with_id k markets with
    | Some m => Some m
    | None => Dict.get store k
    end.
Proof.
  unfold fetch_politics_markets.
  destruct (collect_markets _) as [ms' | e]; simpl; [| discriminate].
  intros H k. inversion H; subst. apply get_upsert_snapshot.
Qed.

Lemma fetch_lookup_last_wins_witness :
  let data := response [market_record "A" 0.9 0.1 2000000;
                        market_record "A" 0.6 0.4 3000000] in
  exists markets,
    fst (fetch_politics_markets scenario_store data) = Ok markets /\
    option_map yes_price (Dict.get (snd (fetch_politics_markets scenario_store data)) "A")
      = Some 0.6 /\
    Dict.get (snd (fetch_politics_markets scenario_store data)) "B"
      = Dict.get scenario_store "B".
Proof.
  cbv zeta. eexists. split; [reflexivity |].
  pose proof (fetch_lookup_last_wins scenario_store
                (response [market_record "A" 0.9 0.1 2000000;
                           market_record "A" 0.6 0.4 3000000]) _ eq_refl) as H.
  split.
  - now rewrite (H "A").
  - now rewrite (H "B").
Defined.

(** ** Which exception a fetch raises *)

Lemma collect_markets_first_error (pre post : list GammaMarket) (m : GammaMarket) (e : exn) :
  Forall (fun r => above_volume r = true -> complete_record r) pre ->
  above_volume m = true -> make_snapshot m = Raise e ->
  collect_markets (pre ++ m :: post) = Raise e.
Proof.
  intros Hpre Hv Hm. induction Hpre as [| p pre Hp Hrest IH]; simpl.
  - now rewrite Hv, Hm.
  - rewrite IH. destruct (above_volume p) eqn:Hvp; [| reflexivity].
    destruct (proj2 (make_snapshot_complete p Hvp) (Hp eq_refl)) as [s Hs].
    now rewrite Hs.
Qed.

(** X5: The exception of a fetch is the one of the first record, in the order of
    the response, that is above the threshold and incomplete; the records
    after it are not looked at, and the store is left as it was. *)
Theorem fetch_raises_first_error
    (store : Dict.t MarketSnapshot) (pre post : list GammaMarket)
    (m : GammaMarket) (e : exn) :
  Forall (fun r => above_volume r = true -> complete_record r) pre ->
  above_volume m = true -> make_snapshot m = Raise e ->
  fetch_politics_markets store (response (pre ++ m :: post)) = (Raise e, store).
Proof.
  intros Hpre Hv Hm. unfold fetch_politics_markets, response. simpl.
  now rewrite (collect_markets_first_error pre post m e Hpre Hv Hm).
Qed.

Lemma fetch_raises_first_error_witness :
  fetch_politics_markets scenario_store
    (response ([market_record "A" 0.9 0.1 2000000; bare_record 5] ++
               mkGammaMarket None None (Some 2000000) None ::
               [one_outcome_record "B" 0.5 2000000])) =
  (Raise (KeyError "id"), scenario_store).
Proof.
  apply (fetch_raises_first_error scenario_store
           [market_record "A" 0.9 0.1 2000000; bare_record 5]
           [one_outcome_record "B" 0.5 2000000]
           (mkGammaMarket None None (Some 2000000) None) (KeyError "id")).
  - constructor; [| constructor; [| constructor]].
    + intros _. repeat split; try discriminate; eexists; reflexivity.
    + intros H. vm_compute in H. discriminate.
  - reflexivity.
  - reflexivity.
Defined.

Lemma make_snapshot_errors (m : GammaMarket) (e : exn) :
  above_volume m = true -> make_snapshot m = Raise e ->
  e = KeyError "id" \/ e = KeyError "outcomes" \/ e = IndexError \/
  e = KeyError "price" \/ e = KeyError "category".
Proof.
  intros Hv. destruct (above_volume_has_volume m Hv) as (v & Hvol & _).
  assert (Hop : forall i e', outcome_price m i = Raise e' ->
                  e' = KeyError "outcomes" \/ e' = IndexError \/ e' = KeyError "price").
  { intros i e'. unfold outcome_price, getindex.
    destruct (j_outcomes m) as [os |]; simpl; [| intros H; inversion H; auto].
    destruct (nth_error os i) as [o |]; simpl; [| intros H; inversion H; auto].
    destruct (j_price o); simpl; intros H; inversion H; auto. }
  unfold make_snapshot. rewrite Hvol.
  destruct (j_id m); simpl; [| intros H; inversion H; auto].
  destruct (outcome_price m 0) eqn:H0; simpl;
    [| intros H; inversion H; subst; destruct (Hop _ _ H0) as [? | [? | ?]]; auto].
  destruct (outcome_price m 1) eqn:H1; simpl;
    [| intros H; inversion H; subst; destruct (Hop _ _ H1) as [? | [? | ?]]; auto].
  destruct (j_category m); simpl; intros H; inversion H; auto.
Qed.

(** X6: A fetch never raises KeyError "volume24h": the key is read by
    subscript only from a record that has passed the volume test, which has
    it. *)
Theorem fetch_never_raises_on_volume24h
    (store : Dict.t MarketSnapshot) (data : GammaResponse) :
  fst (fetch_politics_markets store data) <> Raise (KeyError "volume24h").
Proof.
  unfold fetch_politics_markets.
  destruct (collect_markets _) as [markets | e] eqn:Hc; simpl; [discriminate |].
  intros H. inversion H; subst e. clear H.
  induction (get_default (j_markets data) []) as [| m rest IH]; simpl in Hc;
    [discriminate |].
  destruct (above_volume m) eqn:Hv; [| auto].
  destruct (make_snapshot m) as [s | e0] eqn:Hm; simpl in Hc.
  - destruct (collect_markets rest); simpl in Hc; [discriminate | auto].
  - inversion Hc; subst e0.
    destruct (make_snapshot_errors m _ Hv Hm) as [H | [H | [H | [H | H]]]];
      discriminate.
Qed.

(** ** The store only grows *)

Lemma step_keys_extend (store : Dict.t MarketSnapshot) (ev : event) :
  exists new, Dict.keys (step store ev) = Dict.keys store ++ new.
Proof.
  destruct ev as [data | data]; simpl.
  - unfold fetch_politics_markets.
    destruct (collect_markets _) as [markets | e]; simpl.
    + apply DictMore.keys_update.
    + exists []. now rewrite app_nil_r.
  - exists []. rewrite app_nil_r.
    destruct (on_message_cases store data)
      as [-> | (k & y & _ & _ & _ & [[_ ->] | (n & _ & ->)])]; auto.
    + apply DictFacts.keys_modify.
    + now rewrite !DictFacts.keys_modify.
Qed.

(** X7: No fetch and no stream message removes or moves a key: along any history
    the keys of the store are extended at the end, so a market that was
    stored stays stored, at its place, also when later responses no longer
    list it. *)
Theorem store_only_grows (evs more : list event) :
  (exists new, Dict.keys (run (evs ++ more)) = Dict.keys (run evs) ++ new) /\
  (forall k, Dict.contains (run evs) k = true ->
             Dict.contains (run (evs ++ more)) k = true).
Proof.
  assert (H : exists new, Dict.keys (run (evs ++ more)) = Dict.keys (run evs) ++ new).
  { unfold run. rewrite fold_left_app.
    generalize (fold_left step evs Dict.empty) as store.
    induction more as [| ev r IH]; intros store; simpl.
    - exists []. now rewrite app_nil_r.
    - destruct (IH (step store ev)) as [new Hnew].
      destruct (step_keys_extend store ev) as [new0 Hnew0].
      rewrite Hnew, Hnew0, <- app_assoc. eauto. }
  split; [exact H |].
  destruct H as [new Hnew]. intros k Hk.
  apply DictMore.contains_iff. apply DictMore.contains_iff in Hk.
  rewrite Hnew. apply in_or_app. now left.
Qed.

(** ** Where the spread is exact *)

(** X8: What keeps [spread == abs(yes_price - no_price)] is the fetch: in a store
    written by fetches only, of responses whose prices are finite numbers,
    every entry has it. *)
Theorem fetch_only_store_has_exact_spread (responses : list GammaResponse) :
  Forall (fun kv => spread_exact (snd kv)) (run (map Fetched responses)).
Proof.
  unfold run.
  assert (H : forall store,
             Forall (fun kv => spread_exact (snd kv)) store ->
             Forall (fun kv => spread_exact (snd kv))
               (fold_left step (map Fetched responses) store)).
  { induction responses as [| data r IH]; intros store Hs; simpl; auto.
    apply IH. apply fetch_Forall; auto.
    intros m s _ _ Hm. unfold spread_exact. simpl.
    now rewrite (make_snapshot_spread_exact m s Hm). }
  apply H. constructor.
Qed.

(** X9: Whatever the store was (stale spreads included), after a fetch of a
    response whose prices are finite numbers the entry of every returned id
    has [spread = abs(yes_price - no_price)] again. *)
Theorem fetch_repairs_spread
    (store : Dict.t MarketSnapshot) (data : GammaResponse)
    (markets : list MarketSnapshot) (k : string) :
  fst (fetch_politics_markets store data) = Ok markets ->
  In k (map market_id markets) ->
  exists m, Dict.get (snd (fetch_politics_markets store data)) k = Some m /\
            spread m = Qabs (yes_price m - no_price m).
Proof.
  unfold fetch_politics_markets.
  destruct (collect_markets _) as [ms' | e] eqn:Hc; simpl; [| discriminate].
  intros H Hin. inversion H; subst ms'. clear H.
  destruct (last_with_id_In k markets Hin) as [m Hm].
  exists m. rewrite get_upsert_snapshot, Hm. split; [reflexivity |].
  apply last_with_id_Some in Hm as [Hmin _].
  pose proof (collect_markets_Ok _ _ Hc) as Hall.
  rewrite Forall_forall in Hall. destruct (Hall m Hmin) as (r & _ & _ & Hr).
  exact (make_snapshot_spread_exact r m Hr).
Qed.

Lemma fetch_repairs_spread_witness :
  let stale := snd (on_message scenario_store (orderbook_update "A" 0.2 0.8)) in
  let data := response [market_record "A" 0.3 0.6 2000000] in
  exists markets,
    fst (fetch_politics_markets stale data) = Ok markets /\
    In "A" (map market_id markets) /\
    exists m, Dict.get (snd (fetch_politics_markets stale data)) "A" = Some m /\
              spread m = Qabs (yes_price m - no_price m).
Proof.
  cbv zeta. eexists. split; [reflexivity |]. split; [now left |].
  apply (fetch_repairs_spread
           (snd (on_message scenario_store (orderbook_update "A" 0.2 0.8)))
           (response [market_record "A" 0.3 0.6 2000000]) _ "A" eq_refl).
  now left.
Defined.

(** ** The stream handler, message by message *)



(** X11: An orderbook update with both prices for a stored market stores
    exactly the two prices: after lines 78 and 79 the entry has the new
    yes_price and no_price and the market_id, spread, volume_usd and
    category it had. *)
Theorem on_message_known_id_stores_prices
    (store : Dict.t MarketSnapshot) (data : WsMessage)
    (k : string) (y n : Q) (m : MarketSnapshot) :
  j_type data = Some "orderbook_update" ->
  j_market_id data = Some k -> j_yes_bid data = Some y -> j_no_ask data = Some n ->
  Dict.get store k = Some m ->
  Dict.get (snd (on_message store data)) k =
    Some (mkMarketSnapshot (market_id m) y n (spread m) (volume_usd m) (category m)).
Proof.
  intros Ht Hk Hy Hn Hm. unfold on_message, is_orderbook_update, Dict.contains.
  rewrite Ht, Hk, Hy, Hn, Hm. simpl.
  rewrite !DictFacts.get_modify_eq, Hm. reflexivity.
Qed.

Lemma on_message_known_id_stores_prices_witness :
  exists m,
    Dict.get scenario_store "C" = Some m /\
    Dict.get (snd (on_message scenario_store (orderbook_update "C" 0.2 0.8))) "C" =
      Some (mkMarketSnapshot (market_id m) 0.2 0.8 (spread m) (volume_usd m) (category m)).
Proof.
  eexists. split; [reflexivity |].
  apply (on_message_known_id_stores_prices scenario_store
           (orderbook_update "C" 0.2 0.8) "C" 0.2 0.8); reflexivity.
Defined.

(** X12: What an orderbook update that lacks a key does, before anything is
    written: without "market_id" the handler raises KeyError "market_id";
    with the id of a stored market and without "yes_bid" it raises KeyError
    "yes_bid"; in both cases the store is as it was.  With an id (a string)
    that is not a key of the store nothing is read further: the handler
    returns normally, whatever other keys the message lacks. *)
Theorem on_message_missing_key
    (store : Dict.t MarketSnapshot) (data : WsMessage) :
  j_type data = Some "orderbook_update" ->
  (j_market_id data = None ->
   on_message store data = (Raise (KeyError "market_id"), store)) /\
  (forall k, j_market_id data = Some k -> Dict.contains store k = true ->
             j_yes_bid data = None ->
             on_message store data = (Raise (KeyError "yes_bid"), store)) /\
  (forall k, j_market_id data = Some k -> Dict.contains store k = false ->
             on_message store data = (Ok tt, store)).
Proof.
  intros Ht. unfold on_message, is_orderbook_update. rewrite Ht. simpl.
  split; [| split].
  - intros ->. reflexivity.
  - intros k -> -> ->. reflexivity.
  - intros k -> ->. reflexivity.
Qed.

Lemma on_message_missing_key_witness :
  let data := mkWsMessage (Some "orderbook_update") (Some "A") None (Some 0.8) in
  j_type data = Some "orderbook_update" /\
  on_message scenario_store data = (Raise (KeyError "yes_bid"), scenario_store).
Proof.
  cbv zeta. split; [reflexivity |].
  apply (proj1 (proj2 (on_message_missing_key scenario_store
                         (mkWsMessage (Some "orderbook_update") (Some "A") None (Some 0.8))
                         eq_refl)) "A"); reflexivity.
Defined.

(** X13: An orderbook update for a stored market that has "yes_bid" and lacks
    "no_ask" raises after the first assignment: the entry is left with the new
    yes_price and the old no_price. *)
Theorem on_message_missing_no_ask_partial
    (store : Dict.t MarketSnapshot) (data : WsMessage)
    (k : string) (y : Q) (m : MarketSnapshot) :
  j_type data = Some "orderbook_update" ->
  j_market_id data = Some k -> j_yes_bid data = Some y -> j_no_ask data = None ->
  Dict.get store k = Some m ->
  fst (on_message store data) = Raise (KeyError "no_ask") /\
  Dict.get (snd (on_message store data)) k =
    Some (mkMarketSnapshot (market_id m) y (no_price m) (spread m)
            (volume_usd m) (category m)).
Proof.
  intros Ht Hk Hy Hn Hm. unfold on_message, is_orderbook_update, Dict.contains.
  rewrite Ht, Hk, Hy, Hn, Hm. simpl. split; [reflexivity |].
  rewrite DictFacts.get_modify_eq, Hm. reflexivity.
Qed.

Lemma on_message_missing_no_ask_partial_witness :
  let data := mkWsMessage (Some "orderbook_update") (Some "A") (Some 0.2) None in
  fst (on_message scenario_store data) = Raise (KeyError "no_ask") /\
  option_map yes_price (Dict.get (snd (on_message scenario_store data)) "A") = Some 0.2 /\
  option_map no_price (Dict.get (snd (on_message scenario_store data)) "A") = Some 0.1.
Proof.
  cbv zeta.
  destruct (on_message_missing_no_ask_partial scenario_store
              (mkWsMessage (Some "orderbook_update") (Some "A") (Some 0.2) None)
              "A" 0.2
              (mkMarketSnapshot "A" 0.9 0.1 (Qabs (0.9 - 0.1)) 2000000 "politics")
              eq_refl eq_refl eq_refl eq_refl eq_refl) as [H1 H2].
  split; [exact H1 |]. rewrite H2. split; reflexivity.
Defined.

(** ** The message loop *)

(** X15: Reading the messages [ms1 ++ ms2] is reading [ms1] and then, unless that
    raised, [ms2] from the store it left; after a raise no later message is
    read. *)
Theorem connect_clob_ws_app
    (store : Dict.t MarketSnapshot) (ms1 ms2 : list WsMessage) :
  connect_clob_ws store (ms1 ++ ms2) =
  match connect_clob_ws store ms1 with
  | (Ok _, store') => connect_clob_ws store' ms2
  | (Raise e, store') => (Raise e, store')
  end.
Proof.
  revert store. induction ms1 as [| data r IH]; intros store; simpl.
  - reflexivity.
  - destruct (on_message store data) as [[u | e] store']; auto.
Qed.

Lemma fixed_part_set_yes_price (y : Q) (m : MarketSnapshot) :
  fixed_part (set_yes_price y m) = fixed_part m.
Proof. reflexivity. Qed.

Lemma fixed_part_set_no_price (n : Q) (m : MarketSnapshot) :
  fixed_part (set_no_price n m) = fixed_part m.
Proof. reflexivity. Qed.

Lemma on_message_fixed (store : Dict.t MarketSnapshot) (data : WsMessage) :
  Dict.keys (snd (on_message store data)) = Dict.keys store /\
  map fixed_part (Dict.values (snd (on_message store data))) =
  map fixed_part (Dict.values store).
Proof.
  destruct (on_message_cases store data)
    as [-> | (k & y & _ & _ & _ & [[_ ->] | (n & _ & ->)])]; auto.
  - split; [apply DictFacts.keys_modify |].
    apply DictMore.values_modify_map, fixed_part_set_yes_price.
  - split; [now rewrite !DictFacts.keys_modify |].
    rewrite (DictMore.values_modify_map _ _ _ _ (fixed_part_set_no_price n)).
    apply DictMore.values_modify_map, fixed_part_set_yes_price.
Qed.

Lemma connect_clob_ws_fixed (store : Dict.t MarketSnapshot) (messages : list WsMessage) :
  Dict.keys (snd (connect_clob_ws store messages)) = Dict.keys store /\
  map fixed_part (Dict.values (snd (connect_clob_ws store messages))) =
  map fixed_part (Dict.values store).
Proof.
  revert store. induction messages as [| data r IH]; intros store; simpl; auto.
  destruct (on_message_fixed store data) as [Hk Hv].
  destruct (on_message store data) as [[u | e] store']; simpl in *.
  - destruct (IH store') as [Hk' Hv']. split; congruence.
  - auto.
Qed.

(** X16: Whatever the stream sends, and whether or not the loop ends in an
    exception, it adds no market, removes none, moves none, and leaves the
    market_id, spread, volume_usd and category of every entry as they were:
    only prices change. *)
Theorem connect_clob_ws_frame
    (store : Dict.t MarketSnapshot) (messages : list WsMessage) :
  let store' := snd (connect_clob_ws store messages) in
  Dict.keys store' = Dict.keys store /\
  List.length store' = List.length store /\
  map fixed_part (Dict.values store') = map fixed_part (Dict.values store).
Proof.
  intros store'. subst store'.
  destruct (connect_clob_ws_fixed store messages) as [Hk Hv].
  split; [exact Hk |]. split; [| exact Hv].
  unfold Dict.keys in Hk.
  rewrite <- (length_map fst (snd (connect_clob_ws store messages))), Hk.
  apply length_map.
Qed.

Lemma insert_desc_fixed (x x' : MarketSnapshot) (l l' : list MarketSnapshot) :
  fixed_part x = fixed_part x' -> map fixed_part l = map fixed_part l' ->
  map fixed_part (insert_desc x l) = map fixed_part (insert_desc x' l').
Proof.
  intros Hx. revert l'. induction l as [| y r IH]; intros [| y' r'] Hl;
    simpl in *; try discriminate.
  - now rewrite Hx.
  - assert (Hy : fixed_part y = fixed_part y') by congruence.
    assert (Hr : map fixed_part r = map fixed_part r') by congruence.
    assert (Hsx : spread x = spread x') by (unfold fixed_part in Hx; congruence).
    assert (Hsy : spread y = spread y') by (unfold fixed_part in Hy; congruence).
    rewrite Hsx, Hsy. destruct (Qgtb (spread y') (spread x')); simpl.
    + rewrite Hy. f_equal. now apply IH.
    + now rewrite Hx, Hy, Hr.
Qed.

Lemma sorted_by_spread_desc_fixed (l l' : list MarketSnapshot) :
  map fixed_part l = map fixed_part l' ->
  map fixed_part (sorted_by_spread_desc l) = map fixed_part (sorted_by_spread_desc l').
Proof.
  revert l'. induction l as [| x r IH]; intros [| x' r'] Hl; simpl in *;
    try discriminate; auto.
  apply insert_desc_fixed; [congruence |]. apply IH. congruence.
Qed.

Lemma slice_to_map {A B : Type} (f : A -> B) (l : list A) (n : Z) :
  map f (slice_to l n) = slice_to (map f l) n.
Proof.
  unfold slice_to. rewrite length_map.
  destruct (0 <=? n)%Z; symmetry; apply firstn_map.
Qed.

(** X17: The ranking does not follow the stream: after any messages the query
    returns the same markets in the same order, with the spreads they had. *)
Theorem stream_never_changes_ranking
    (store : Dict.t MarketSnapshot) (messages : list WsMessage) (top_n : Z) :
  map fixed_part (get_top_mispricing (snd (connect_clob_ws store messages)) top_n) =
  map fixed_part (get_top_mispricing store top_n).
Proof.
  unfold get_top_mispricing. rewrite !slice_to_map. f_equal.
  apply sorted_by_spread_desc_fixed.
  apply (connect_clob_ws_fixed store messages).
Qed.

(** ** The subscription message *)



(** X19: A subscription sent after a fetch covers every market the fetch returned
    and every market that was stored before. *)
Theorem subscribe_msg_covers_fetched
    (store : Dict.t MarketSnapshot) (data : GammaResponse)
    (markets : list MarketSnapshot) :
  fst (fetch_politics_markets store data) = Ok markets ->
  let topics := sub_topics (subscribe_msg (snd (fetch_politics_markets store data))) in
  (forall m, In m markets -> In (String.append "market/" (market_id m)) topics) /\
  (forall k, Dict.contains store k = true -> In (String.append "market/" k) topics).
Proof.
  unfold fetch_politics_markets.
  destruct (collect_markets _) as [ms' | e]; simpl; [| discriminate].
  intros H. inversion H; subst ms'. clear H.
  assert (Hkey : forall k, In k (Dict.keys (upsert_snapshot store markets)) ->
                           In (String.append "market/" k)
                              (map (fun market_id => String.append "market/" market_id)
                                 (Dict.keys (upsert_snapshot store markets)))).
  { intros k Hk. apply in_map_iff. eauto. }
  split.
  - intros m Hm. apply Hkey.
    apply DictMore.contains_iff. unfold Dict.contains.
    rewrite get_upsert_snapshot.
    destruct (last_with_id_In (market_id m) markets) as [m' ->]; auto.
    apply in_map_iff. eauto.
  - intros k Hk. apply Hkey. unfold upsert_snapshot.
    apply DictMore.keys_update_In. left. now apply DictMore.contains_iff.
Qed.

Lemma subscribe_msg_covers_fetched_witness :
  let data := response [market_record "E" 0.6 0.4 3000000] in
  exists markets,
    fst (fetch_politics_markets scenario_store data) = Ok markets /\
    sub_topics (subscribe_msg (snd (fetch_politics_markets scenario_store data))) =
      ["market/A"; "market/B"; "market/C"; "market/E"] /\
    (forall m, In m markets ->
       In (String.append "market/" (market_id m))
          (sub_topics (subscribe_msg (snd (fetch_politics_markets scenario_store data))))).
Proof.
  cbv zeta. eexists. split; [reflexivity |]. split; [reflexivity |].
  exact (proj1 (subscribe_msg_covers_fetched scenario_store
                  (response [market_record "E" 0.6 0.4 3000000]) _ eq_refl)).
Defined.

(** ** More on the ranked query *)

(** X20: Asking for more markets extends the answer: for [0 <= n <= n'] the answer
    to [n] is the front of the answer to [n']. *)
Theorem get_top_mispricing_prefix_monotone
    (store : Dict.t MarketSnapshot) (n n' : Z) :
  (0 <= n)%Z -> (n <= n')%Z ->
  exists rest, get_top_mispricing store n' = get_top_mispricing store n ++ rest.
Proof.
  intros H0 Hle. unfold get_top_mispricing, slice_to.
  destruct (Z.leb_spec 0 n); [| lia]. destruct (Z.leb_spec 0 n'); [| lia].
  set (l := sorted_by_spread_desc (Dict.values store)).
  exists (skipn (Z.to_nat n) (firstn (Z.to_nat n') l)).
  rewrite <- (firstn_skipn (Z.to_nat n) (firstn (Z.to_nat n') l)) at 1.
  f_equal. rewrite firstn_firstn. f_equal. lia.
Qed.

Lemma get_top_mispricing_prefix_monotone_witness :
  exists rest,
    get_top_mispricing scenario_store 3 = get_top_mispricing scenario_store 1 ++ rest.
Proof.
  apply (get_top_mispricing_prefix_monotone scenario_store 1 3); discriminate.
Defined.

(** X21: A negative [top_n] raises nothing: the answer is the whole ranking without
    its last [-top_n] markets (the empty list when there are no more than
    that). *)
Theorem get_top_mispricing_negative
    (store : Dict.t MarketSnapshot) (top_n : Z) :
  (top_n < 0)%Z ->
  exists dropped,
    sorted_by_spread_desc (Dict.values store) =
      get_top_mispricing store top_n ++ dropped /\
    List.length dropped = Nat.min (Z.to_nat (- top_n)) (List.length store).
Proof.
  intros Hneg. unfold get_top_mispricing, slice_to.
  destruct (Z.leb_spec 0 top_n); [lia |].
  set (l := sorted_by_spread_desc (Dict.values store)).
  assert (Hlen : List.length l = List.length store).
  { unfold l. rewrite (Permutation_length (sorted_by_spread_desc_perm _)).
    unfold Dict.values. apply length_map. }
  exists (skipn (Z.to_nat (Z.of_nat (List.length l) + top_n)) l). split.
  - symmetry. apply firstn_skipn.
  - rewrite length_skipn, Hlen. lia.
Qed.

Lemma get_top_mispricing_negative_witness :
  (-1 < 0)%Z /\
  map market_id (get_top_mispricing scenario_store (-1)) = ["A"; "C"] /\
  exists dropped,
    sorted_by_spread_desc (Dict.values scenario_store) =
      get_top_mispricing scenario_store (-1) ++ dropped /\
    List.length dropped = Nat.min (Z.to_nat (- -1)) (List.length scenario_store).
Proof.
  assert (H : (-1 < 0)%Z) by reflexivity.
  split; [exact H |]. split; [reflexivity |].
  exact (get_top_mispricing_negative scenario_store (-1) H).
Defined.

(** X22: On a store whose spreads are finite numbers, the first market of an
    answer has the greatest spread of the store. *)
Theorem get_top_mispricing_head_is_max
    (store : Dict.t MarketSnapshot) (top_n : Z)
    (m : MarketSnapshot) (rest : list MarketSnapshot) :
  get_top_mispricing store top_n = m :: rest ->
  forall k m', Dict.get store k = Some m' -> spread m' <= spread m.
Proof.
  unfold get_top_mispricing. intros Htop k m' Hget.
  set (l := sorted_by_spread_desc (Dict.values store)) in *.
  destruct (slice_to_prefix l top_n) as [tl Hl]. rewrite Htop in Hl.
  assert (Hin : In m' l).
  { apply (Permutation_in _ (Permutation_sym (sorted_by_spread_desc_perm _))).
    unfold Dict.values. apply in_map_iff. exists (k, m'). split; [reflexivity |].
    now apply DictFacts.get_In. }
  pose proof (sorted_by_spread_desc_sorted (Dict.values store)) as Hs.
  fold l in Hs. rewrite Hl in Hs, Hin. simpl in Hs, Hin.
  inversion Hs as [| ? ? _ Hall]; subst.
  destruct Hin as [<- | Hin]; [apply Qle_refl |].
  rewrite Forall_forall in Hall. exact (Hall m' Hin).
Qed.

Lemma get_top_mispricing_head_is_max_witness :
  exists m rest,
    get_top_mispricing scenario_store 1 = m :: rest /\
    forall k m', Dict.get scenario_store k = Some m' -> spread m' <= spread m.
Proof.
  eexists. eexists. split; [reflexivity |].
  exact (get_top_mispricing_head_is_max scenario_store 1 _ _ eq_refl).
Defined.

(** ** test_datafeed *)

Lemma slice_to_nonneg {A : Type} (l : list A) (n : Z) :
  (0 <= n)%Z -> slice_to l n = firstn (Z.to_nat n) l.
Proof.
  intros Hn. unfold slice_to. destruct (Z.leb_spec 0 n); [reflexivity | lia].
Qed.

Lemma collect_markets_ids (ms : list GammaMarket) (markets : list MarketSnapshot) :
  collect_markets ms = Ok markets ->
  map (fun s => Some (market_id s)) markets = map j_id (filter above_volume ms).
Proof.
  revert markets. induction ms as [| m rest IH]; simpl; intros markets Hc.
  - now inversion Hc.
  - destruct (above_volume m) eqn:Hv; [| now apply IH].
    apply bind_Ok in Hc as (s & Hs & Hc). apply bind_Ok in Hc as (tl & Htl & Hc).
    inversion Hc; subst markets.
    apply make_snapshot_Ok in Hs as (i & y & n & v & c & Hi & _ & _ & _ & _ & ->).
    simpl. now rewrite (IH tl Htl), Hi.
Qed.

(** X23: What [test_datafeed] prints when the fetch returns: the ids of the first
    three records of the response that are above the volume threshold, in
    their order, fewer when there are fewer. *)
Theorem test_datafeed_prints_first_three (data : GammaResponse) (ids : list string) :
  test_datafeed data = Ok ids ->
  map Some ids =
    firstn 3 (map j_id (filter above_volume (get_default (j_markets data) []))) /\
  (List.length ids <= 3)%nat.
Proof.
  unfold test_datafeed, fetch_politics_markets.
  destruct (collect_markets _) as [markets | e] eqn:Hc; unfold fst, bind;
    [| discriminate].
  intros H. injection H as <-.
  rewrite slice_to_nonneg by discriminate.
  change (Z.to_nat 3) with 3%nat. split.
  - rewrite map_map, <- (collect_markets_ids _ _ Hc). symmetry. apply firstn_map.
  - rewrite length_map. apply firstn_le_length.
Qed.

Lemma test_datafeed_prints_first_three_witness :
  test_datafeed
    (response [market_record "A" 0.9 0.1 2000000; market_record "D" 1 0 10;
               market_record "B" 0.5 0.5 2000000; market_record "C" 0.7 0.35 2000000;
               market_record "E" 0.6 0.4 3000000]) = Ok ["A"; "B"; "C"] /\
  (List.length ["A"; "B"; "C"] <= 3)%nat.
Proof.
  split; [reflexivity |].
  exact (proj2 (test_datafeed_prints_first_three
                  (response [market_record "A" 0.9 0.1 2000000; market_record "D" 1 0 10;
                             market_record "B" 0.5 0.5 2000000;
                             market_record "C" 0.7 0.35 2000000;
                             market_record "E" 0.6 0.4 3000000])
                  ["A"; "B"; "C"] eq_refl)).
Defined.

(** ** How stream messages compose *)

Module ModifyFacts.
Section WithValue.
Context {V : Type}.
Implicit Types (d : Dict.t V) (k : string) (f g : V -> V).

Lemma modify_ext d k f g :
  (forall v, f v = g v) -> Dict.modify d k f = Dict.modify d k g.
Proof.
  intros H. induction d as [| [k' v'] r IH]; simpl; auto.
  destruct (String.eqb k' k); [now rewrite H | now rewrite IH].
Qed.

Lemma modify_id d k : Dict.modify d k (fun v => v) = d.
Proof.
  induction d as [| [k' v'] r IH]; simpl; auto.
  destruct (String.eqb k' k); [reflexivity | now rewrite IH].
Qed.

Lemma modify_modify d k f g :
  Dict.modify (Dict.modify d k f) k g = Dict.modify d k (fun v => g (f v)).
Proof.
  induction d as [| [k' v'] r IH]; simpl; auto.
  destruct (String.eqb k' k) eqn:E; simpl; rewrite E; [reflexivity | now rewrite IH].
Qed.

Lemma modify_comm d k k' f g :
  k <> k' ->
  Dict.modify (Dict.modify d k f) k' g = Dict.modify (Dict.modify d k' g) k f.
Proof.
  intros Hne. induction d as [| [k0 v0] r IH]; simpl; auto.
  destruct (String.eqb_spec k0 k) as [-> | Hk]; simpl.
  - destruct (String.eqb_spec k k') as [? | _]; [congruence |]. simpl.
    now rewrite String.eqb_refl.
  - destruct (String.eqb_spec k0 k') as [-> | Hk']; simpl.
    + destruct (String.eqb_spec k' k) as [? | _]; [congruence | reflexivity].
    + destruct (String.eqb_spec k0 k) as [? | _]; [congruence |]. now rewrite IH.
Qed.
End WithValue.
End ModifyFacts.

(** The store after a message is the store with [price_update] applied to the
    entry of the id the message names. *)
Lemma on_message_store (store : Dict.t MarketSnapshot) (data : WsMessage) :
  snd (on_message store data) =
  match j_market_id data with
  | Some k => Dict.modify store k (price_update data)
  | None => store
  end.
Proof.
  unfold on_message, price_update.
  destruct (is_orderbook_update data).
  2: { destruct (j_market_id data); simpl; [| reflexivity].
       symmetry. apply ModifyFacts.modify_id. }
  destruct (j_market_id data) as [k |]; simpl; [| reflexivity].
  unfold Dict.contains. destruct (Dict.get store k) eqn:Hg; simpl.
  - destruct (j_yes_bid data) as [y |]; simpl.
    + destruct (j_no_ask data) as [n |]; simpl; [| reflexivity].
      apply ModifyFacts.modify_modify.
    + symmetry. apply ModifyFacts.modify_id.
  - symmetry. now apply DictFacts.modify_absent.
Qed.

(** X24: Two messages that name different markets can be applied in either order:
    the store is the same. *)
Theorem on_message_distinct_ids_commute
    (store : Dict.t MarketSnapshot) (d1 d2 : WsMessage) :
  j_market_id d1 <> j_market_id d2 ->
  snd (on_message (snd (on_message store d1)) d2) =
  snd (on_message (snd (on_message store d2)) d1).
Proof.
  intros Hne. rewrite !on_message_store.
  destruct (j_market_id d1) as [k1 |], (j_market_id d2) as [k2 |]; auto.
  apply ModifyFacts.modify_comm. congruence.
Qed.

Lemma on_message_distinct_ids_commute_witness :
  j_market_id (orderbook_update "A" 0.2 0.8) <> j_market_id (orderbook_update "C" 0.3 0.6) /\
  snd (on_message (snd (on_message scenario_store (orderbook_update "A" 0.2 0.8)))
         (orderbook_update "C" 0.3 0.6)) =
  snd (on_message (snd (on_message scenario_store (orderbook_update "C" 0.3 0.6)))
         (orderbook_update "A" 0.2 0.8)).
Proof.
  assert (H : j_market_id (orderbook_update "A" 0.2 0.8)
              <> j_market_id (orderbook_update "C" 0.3 0.6)) by discriminate.
  split; [exact H |].
  exact (on_message_distinct_ids_commute scenario_store _ _ H).
Defined.

(** X25: A message delivered twice in a row leaves the store it leaves when
    delivered once. *)
Theorem on_message_idempotent (store : Dict.t MarketSnapshot) (data : WsMessage) :
  snd (on_message (snd (on_message store data)) data) = snd (on_message store data).
Proof.
  rewrite !on_message_store.
  destruct (j_market_id data) as [k |]; [| reflexivity].
  rewrite ModifyFacts.modify_modify. apply ModifyFacts.modify_ext.
  intros m. unfold price_update.
  destruct (is_orderbook_update data); [| reflexivity].
  destruct (j_yes_bid data) as [y |]; [| reflexivity].
  destruct (j_no_ask data) as [n |]; reflexivity.
Qed.

(** X26: The last complete update of a market wins: after an orderbook update with
    both prices, whatever an earlier message for the same market wrote (a
    partial write included) is gone. *)
Theorem on_message_last_update_wins
    (store : Dict.t MarketSnapshot) (d1 d2 : WsMessage) (y n : Q) :
  j_market_id d1 = j_market_id d2 ->
  j_type d2 = Some "orderbook_update" ->
  j_yes_bid d2 = Some y -> j_no_ask d2 = Some n ->
  snd (on_message (snd (on_message store d1)) d2) = snd (on_message store d2).
Proof.
  intros Hk Ht Hy Hn. rewrite !on_message_store, Hk.
  destruct (j_market_id d2) as [k |]; [| reflexivity].
  rewrite ModifyFacts.modify_modify. apply ModifyFacts.modify_ext.
  intros m. unfold price_update at 1 3. unfold is_orderbook_update.
  rewrite Ht, Hy, Hn. simpl.
  unfold price_update.
  destruct (is_orderbook_update d1); [| reflexivity].
  destruct (j_yes_bid d1); [| reflexivity].
  destruct (j_no_ask d1); reflexivity.
Qed.

Lemma on_message_last_update_wins_witness :
  let partial := mkWsMessage (Some "orderbook_update") (Some "A") (Some 0.4) None in
  snd (on_message (snd (on_message scenario_store partial)) (orderbook_update "A" 0.2 0.8)) =
  snd (on_message scenario_store (orderbook_update "A" 0.2 0.8)).
Proof.
  cbv zeta.
  apply (on_message_last_update_wins scenario_store
           (mkWsMessage (Some "orderbook_update") (Some "A") (Some 0.4) None)
           (orderbook_update "A" 0.2 0.8) 0.2 0.8); reflexivity.
Defined.
